(** * Visor NO2 / Incendios: a shallow embedding of [streamlit_app_optimized.py]

    The dashboard is one Streamlit script.  We embed:
    - the part of Pillow it uses for the overlay view ([Image.new],
      [putalpha], [Image.alpha_composite], following Pillow's integer
      implementation in [libImaging/AlphaComposite.c]);
    - the data frame as it is loaded, the month selector and metric panel;
    - the Pearson coefficient ([Series.corr], i.e. [np.corrcoef]) and the
      strength labelling;
    - the whole page as a program in a small writer/heap/exception monad,
      so that [st.stop()], uncaught exceptions and the mutation of shared
      data frames are visible. *)

From Stdlib Require Import ZArith List String Ascii QArith Qminmax Qround Bool Lia.
Import ListNotations.

Open Scope Z_scope.

(** ** Pillow: RGBA images *)

Module PIL.

(** One RGBA pixel, four 8-bit channels. *)
Record rgba := mkRGBA { pr : Z; pg : Z; pb : Z; pa : Z }.

(** An image: [size = (width, height)] and its rows of pixels. *)
Record image := mkImage { im_w : nat; im_h : nat; im_px : list (list rgba) }.

Definition size (i : image) : nat * nat := (im_w i, im_h i).

Definition size_eqb (i j : image) : bool :=
  Nat.eqb (im_w i) (im_w j) && Nat.eqb (im_h i) (im_h j).

(** Assignment to a [UINT8] field keeps the low byte. *)
Definition u8 (z : Z) : Z := Z.land z 255.

Definition PRECISION_BITS : Z := 7.

(** [#define SHIFTFORDIV255(a) ((((a) >> 8) + a) >> 8)] *)
Definition SHIFTFORDIV255 (a : Z) : Z := Z.shiftr (Z.shiftr a 8 + a) 8.

(** The per-pixel body of [ImagingAlphaComposite(imDst, imSrc)]. *)
Definition composite_px (dst src : rgba) : rgba :=
  if pa src =? 0 then dst
  else
    let blend := pa dst * (255 - pa src) in
    let outa255 := pa src * 255 + blend in
    let coef1 := pa src * 255 * 255 * Z.shiftl 1 PRECISION_BITS / outa255 in
    let coef2 := 255 * Z.shiftl 1 PRECISION_BITS - coef1 in
    let chan s d :=
      u8 (Z.shiftr (SHIFTFORDIV255 (s * coef1 + d * coef2
                                    + Z.shiftl 128 PRECISION_BITS))
                   PRECISION_BITS) in
    mkRGBA (chan (pr src) (pr dst)) (chan (pg src) (pg dst))
           (chan (pb src) (pb dst)) (u8 (SHIFTFORDIV255 (outa255 + 128))).

Fixpoint zip_with {A B C : Type} (f : A -> B -> C) (l1 : list A) (l2 : list B)
  : list C :=
  match l1, l2 with
  | a :: l1', b :: l2' => f a b :: zip_with f l1' l2'
  | _, _ => []
  end.

(** [Image.alpha_composite(im1, im2)]: both images must have the same size,
    otherwise Pillow raises [ValueError("images do not match")]. *)
Definition alpha_composite (im1 im2 : image) : option image :=
  if size_eqb im1 im2
  then Some (mkImage (im_w im1) (im_h im1)
                     (zip_with (zip_with composite_px) (im_px im1) (im_px im2)))
  else None.

(** [Image.new('RGBA', (w, h), c)] *)
Definition new_rgba (w h : nat) (c : rgba) : image :=
  mkImage w h (repeat (repeat c w) h).

Definition set_alpha (a : Z) (p : rgba) : rgba := mkRGBA (pr p) (pg p) (pb p) a.

(** [im.putalpha(a)] with an integer [a] on an RGBA image: the alpha band is
    filled with [a]; the colour bands are kept.  [copy()] followed by
    [putalpha] is this pure function. *)
Definition putalpha (i : image) (a : Z) : image :=
  mkImage (im_w i) (im_h i) (map (map (set_alpha a)) (im_px i)).

(** [im.getpixel((x, y))]: the pixel in column [x] of row [y]; Pillow
    raises [IndexError] outside the image. *)
Definition getpixel (i : image) (x y : nat) : option rgba :=
  match nth_error (im_px i) y with
  | Some row => nth_error row x
  | None => None
  end.

(** Well-formed images: [im_h] rows of [im_w] pixels with 8-bit channels. *)
Definition byte_ok (z : Z) : bool := (0 <=? z) && (z <=? 255).

Definition px_ok (p : rgba) : bool :=
  byte_ok (pr p) && byte_ok (pg p) && byte_ok (pb p) && byte_ok (pa p).

Definition img_ok (i : image) : bool :=
  Nat.eqb (List.length (im_px i)) (im_h i)
  && forallb (fun row => Nat.eqb (List.length row) (im_w i) && forallb px_ok row)
             (im_px i).

Definition all_opaque (i : image) : bool :=
  forallb (forallb (fun p => pa p =? 255)) (im_px i).

Definition rgb (p : rgba) : Z * Z * Z := (pr p, pg p, pb p).

(** Two images that agree on size and colour bands, whatever their alpha. *)
Definition same_rgb (i j : image) : Prop :=
  im_w i = im_w j /\ im_h i = im_h j /\ map (map rgb) (im_px i) = map (map rgb) (im_px j).

End PIL.

Import PIL.

(** ** The overlay view (lines 285-331) *)

Module Overlay.

(** The "Mezcla" selectbox. *)
Inductive blend_mode := Normal | Multiplicar | Pantalla.

(** [int(255 * opacity)]: the slider's float is read as a rational, and
    [int] truncates toward zero. *)
Definition alpha_of_opacity (op : Q) : Z :=
  let q := ((255 # 1) * op)%Q in Z.quot (Qnum q) (Zpos (Qden q)).

Definition white : rgba := mkRGBA 255 255 255 255.

Section WithResize.

(** [img.resize(size, Image.Resampling.LANCZOS)]: Pillow's resampling, whose
    pixel values are not modelled. *)
Variable resize : image -> nat * nat -> image.

(** Lines 311-313: the T21 layer is resized to the NO2 size when they differ. *)
Definition match_size (img_no2 img_t21 : image) : image :=
  if negb (size_eqb img_no2 img_t21) then resize img_t21 (size img_no2)
  else img_t21.

(** Lines 307-328.  [blend_mode] is read from the selectbox and passed in, as
    in the source; [None] is the [ValueError] of a failing
    [alpha_composite]. *)
Definition overlay (blend : blend_mode) (opacity_no2 opacity_t21 : Q)
    (img_no2 img_t21 : image) : option image :=
  let img_t21 := match_size img_no2 img_t21 in
  let base := new_rgba (im_w img_no2) (im_h img_no2) white in
  let img_no2_alpha := putalpha img_no2 (alpha_of_opacity opacity_no2) in
  let img_t21_alpha := putalpha img_t21 (alpha_of_opacity opacity_t21) in
  match alpha_composite base img_no2_alpha with
  | None => None
  | Some result => alpha_composite result img_t21_alpha
  end.

End WithResize.

End Overlay.

(** ** The data frame (lines 151-176) and the month selector (197-206) *)

Module Data.

(** A [Timestamp] after [pd.to_datetime]; only the calendar fields are
    used. *)
Record date := mkDate { yr : nat; mo : nat; dy : nat }.

(** One CSV row: [Fecha, NO2, T21].  Floats are read as rationals. *)
Record row := mkRow { Fecha : date; NO2 : Q; T21 : Q }.

(** A decimal digit character. *)
Definition digit (n : nat) : ascii := ascii_of_nat (48 + n mod 10).

(** [%Y] as glibc's [strftime] prints it: the year in decimal, without
    leading zeros (['999'] for the year 999); a [Timestamp] has a year below
    10000. *)
Definition strftime_Y (y : nat) : string :=
  if (y <? 10)%nat then String (digit y) EmptyString
  else if (y <? 100)%nat then String (digit (y / 10)) (String (digit y) EmptyString)
  else if (y <? 1000)%nat then
    String (digit (y / 100)) (String (digit (y / 10)) (String (digit y) EmptyString))
  else
    String (digit (y / 1000)) (String (digit (y / 100))
    (String (digit (y / 10)) (String (digit y) EmptyString))).

(** [ts.strftime('%Y-%m')]: the year, a dash and the month on two digits. *)
Definition strftime_ym (d : date) : string :=
  (strftime_Y (yr d) ++
   String "-"%char (String (digit (mo d / 10)) (String (digit (mo d)) EmptyString)))%string.

(** [ts.strftime('%B')] in the C locale. *)
Definition month_name (d : date) : string :=
  nth (pred (mo d))
    ["January"; "February"; "March"; "April"; "May"; "June"; "July";
     "August"; "September"; "October"; "November"; "December"]%string
    EmptyString.

(** [df['Fecha'].dt.strftime('%Y-%m')] *)
Definition months (df : list row) : list string :=
  map (fun r => strftime_ym (Fecha r)) df.

(** [Series.unique()]: values in order of first appearance. *)
Fixpoint unique (l : list string) : list string :=
  match l with
  | [] => []
  | x :: l' => x :: filter (fun y => negb (String.eqb x y)) (unique l')
  end.

Fixpoint insert_sorted (x : string) (l : list string) : list string :=
  match l with
  | [] => [x]
  | y :: l' => if String.leb x y then x :: l else y :: insert_sorted x l'
  end.

(** Python's [sorted] on strings. *)
Fixpoint sorted (l : list string) : list string :=
  match l with
  | [] => []
  | x :: l' => insert_sorted x (sorted l')
  end.

(** Line 197. *)
Definition available_months (df : list row) : list string :=
  sorted (unique (months df)).

(** The position of the first row of [df[df['Fecha'].dt.strftime('%Y-%m')
    == m]].  [read_csv] gives a [RangeIndex], so the index label of a row
    ([.index[0]]) is its position ([.iloc]). *)
Fixpoint find_index (m : string) (df : list row) : option nat :=
  match df with
  | [] => None
  | r :: df' =>
      if String.eqb (strftime_ym (Fecha r)) m then Some 0%nat
      else option_map S (find_index m df')
  end.

(** [df[...].iloc[0]]; [None] is the [IndexError] of an empty selection. *)
Definition selected_data (df : list row) (m : string) : option row :=
  match find_index m df with
  | Some i => nth_error df i
  | None => None
  end.

(** A float64 result: a finite value, [inf], [-inf] or [nan]. *)
Inductive float_val := Fin (q : Q) | PosInf | NegInf | NaN.

(** Line 223: [((selected_data['NO2'] - prev_no2) / prev_no2) * 100] on
    numpy [float64] scalars.  Dividing by [0.0] does not raise: a positive
    numerator gives [inf], a negative one [-inf] and [0.0 / 0.0] gives
    [nan]; multiplying by 100 keeps them.  Finite values are the exact
    rationals (the CSV has no [-0.0] to tell apart from [0.0]). *)
Definition pct_change (cur prev : Q) : float_val :=
  if Qeq_bool prev 0 then
    if Qeq_bool (cur - prev) 0 then NaN
    else if Qle_bool (cur - prev) 0 then NegInf else PosInf
  else Fin ((cur - prev) / prev * 100)%Q.

End Data.

Import Data.

(** ** Pearson correlation (line 535) and its labelling (lines 603-617) *)

From Stdlib Require Import Reals Qreals Psatz.

Module Corr.

Local Open Scope R_scope.

Fixpoint rsum (l : list R) : R :=
  match l with [] => 0 | x :: l' => x + rsum l' end.

Definition rmean (l : list R) : R := rsum l / INR (List.length l).

(** [np.cov] entry for rows [xs] and [ys] ([ddof = 1]). *)
Definition cov (xs ys : list R) : R :=
  let mx := rmean xs in
  let my := rmean ys in
  rsum (zip_with (fun x y => (x - mx) * (y - my)) xs ys)
  / INR (List.length xs - 1).

(** [np.clip(c, -1, 1)] *)
Definition clip (c : R) : R := Rmax (-1) (Rmin c 1).

(** [Series.corr] with [method='pearson'] on two equally long, NaN-free
    series: [np.corrcoef(a, b)[0, 1]].  [None] is NaN: fewer than two
    values (division by [N - 1 = 0], or the empty-series early return) or a
    zero variance (a [0/0] after dividing by [stddev]).  The arithmetic is
    exact: it agrees with float64 where the means and deviations are
    exact, such as a series of equal dyadic values. *)
Definition corrcoef (xs ys : list R) : option R :=
  if (List.length xs <=? 1)%nat then None
  else
    let cxx := cov xs xs in
    let cyy := cov ys ys in
    let cxy := cov xs ys in
    if Req_EM_T cxx 0 then None
    else if Req_EM_T cyy 0 then None
    else Some (clip (cxy / sqrt cxx / sqrt cyy)).

(** [df['NO2'].corr(df['T21'])] *)
Definition correlation (df : list row) : option R :=
  corrcoef (map (fun r => Q2R (NO2 r)) df) (map (fun r => Q2R (T21 r)) df).

Inductive strength := Debil | Moderada | Fuerte.

(** Lines 603-617; a NaN fails both comparisons.  The float literals
    [0.3] and [0.7] are read as the reals [3/10] and [7/10]. *)
Definition interpretation (c : option R) : strength :=
  match c with
  | None => Fuerte
  | Some r =>
      if Rlt_dec (Rabs r) (3 / 10) then Debil
      else if Rlt_dec (Rabs r) (7 / 10) then Moderada
      else Fuerte
  end.

End Corr.

(** ** The page *)

Module Dash.

Local Open Scope string_scope.

(** A number shown through a Python format spec ([f"{x:.2e}"] is
    [DNum ".2e" x]); the digits produced by the spec are not modelled. *)
Inductive disp := DNum (spec : string) (q : Q) | DText (s : string).

(** A pandas column and a data frame (column name, column). *)
Inductive column :=
  | CDates (l : list date)
  | CNums (l : list Q)
  | CFmt (l : list disp).

Definition frame := list (string * column).

(** Heap objects: Python data frames and the metadata dict. *)
Inductive obj := OFrame (f : frame) | OMeta (m : list (string * string)).

Definition heap := list obj.

(** What the script writes to the page, in order.  Labels are the source's
    strings without their non-ASCII characters. *)
Inductive elem :=
  | PageConfig (title : string)
  | Radio (label : string) (opts : list string)
  | Markdown (s : string)
  | MarkdownFmt (template : string) (arg : disp)
  | Subheader (s : string)
  | Error (s : string)
  | Warning (s : string)
  | Info (s : string)
  | Code (s : string)
  | Selectbox (label : string) (opts : list string)
  | Slider (label : string)
  | Metric (label : string) (value : disp) (delta : option disp)
  | ShowImage (i : image)
  | Chart (title : string) (xs ys : list Q)
  (* the coefficient box of lines 535 and 603-617: [Corr.correlation] of
     the two series and its [Corr.interpretation] *)
  | CorrBox (xs ys : list Q)
  | DataTable (f : frame)
  | Tabs (names : list string)
  | Expander (title : string).

(** How a script run ends early: [st.stop()] or an uncaught exception. *)
Inductive halt := Stopped | Raised (exn : string).

(** A script fragment: it reads and writes the heap, appends to the page and
    returns a value or halts. *)
Definition App (A : Type) : Type := heap -> list elem * heap * (halt + A).

Definition ret {A : Type} (a : A) : App A := fun h => ([], h, inr a).

Definition bind {A B : Type} (m : App A) (k : A -> App B) : App B :=
  fun h =>
    match m h with
    | (t1, h1, inl e) => (t1, h1, inl e)
    | (t1, h1, inr a) =>
        match k a h1 with (t2, h2, r) => ((t1 ++ t2)%list, h2, r) end
    end.

Notation "x <- m ;; k" := (bind m (fun x => k))
  (at level 61, m at next level, right associativity).
Notation "m ;; k" := (bind m (fun _ : unit => k))
  (at level 61, right associativity).

Definition emit (e : elem) : App unit := fun h => ([e], h, inr tt).
Definition stop {A : Type} : App A := fun h => ([], h, inl Stopped).
Definition raise {A : Type} (exn : string) : App A :=
  fun h => ([], h, inl (Raised exn)).

Definition alloc (o : obj) : App nat :=
  fun h => ([], (h ++ [o])%list, inr (List.length h)).

Definition deref (p : nat) : App obj :=
  fun h => match nth_error h p with
           | Some o => ([], h, inr o)
           | None => ([], h, inl (Raised "NameError"%string))
           end.

Fixpoint replace_nth {A : Type} (l : list A) (i : nat) (x : A) : list A :=
  match l, i with
  | [], _ => []
  | _ :: l', O => x :: l'
  | y :: l', S i' => y :: replace_nth l' i' x
  end.

Definition store (p : nat) (o : obj) : App unit :=
  fun h => ([], replace_nth h p o, inr tt).

Fixpoint col_lookup (f : frame) (name : string) : option column :=
  match f with
  | [] => None
  | (n, c) :: f' => if String.eqb n name then Some c else col_lookup f' name
  end.

(** [df[name] = c]: replace the column, or append a new one. *)
Fixpoint col_assign (f : frame) (name : string) (c : column) : frame :=
  match f with
  | [] => [(name, c)]
  | (n, c') :: f' =>
      if String.eqb n name then (n, c) :: f' else (n, c') :: col_assign f' name c
  end.

Definition get_frame (p : nat) : App frame :=
  o <- deref p;;
  match o with OFrame f => ret f | OMeta _ => raise "TypeError"%string end.

Definition get_column (p : nat) (name : string) : App column :=
  f <- get_frame p;;
  match col_lookup f name with
  | Some c => ret c
  | None => raise "KeyError"%string
  end.

Definition set_column (p : nat) (name : string) (c : column) : App unit :=
  f <- get_frame p;; store p (OFrame (col_assign f name c)).

(** [df.copy()]: a new object with the same columns. *)
Definition copy_frame (p : nat) : App nat :=
  f <- get_frame p;; alloc (OFrame f).

Definition frame_of_rows (rows : list row) : frame :=
  [("Fecha", CDates (map Fecha rows)); ("NO2", CNums (map NO2 rows));
   ("T21", CNums (map T21 rows))]%string.

Fixpoint zip_rows (ds : list date) (ns ts : list Q) : list row :=
  match ds, ns, ts with
  | d :: ds', n :: ns', t :: ts' => mkRow d n t :: zip_rows ds' ns' ts'
  | _, _, _ => []
  end.

Definition rows_of_frame (f : frame) : option (list row) :=
  match col_lookup f "Fecha", col_lookup f "NO2", col_lookup f "T21" with
  | Some (CDates ds), Some (CNums ns), Some (CNums ts) => Some (zip_rows ds ns ts)
  | _, _, _ => None
  end%string.

(** Reading [df['Fecha']], [df['NO2']] and [df['T21']] through the name
    [df]. *)
Definition read_rows (p : nat) : App (list row) :=
  f <- get_frame p;;
  match rows_of_frame f with
  | Some rows => ret rows
  | None => raise "KeyError"%string
  end.

(** ** Inputs: widget values and files *)

Inductive theme := Claro | Oscuro.
Inductive view_mode := LadoALado | Superposicion | Individual.
Inductive layer := CapaNO2 | CapaT21.

(** The values the widgets return on this run; [w_month = None] keeps the
    selectbox default ([index=len(available_months)-1]). *)
Record widgets := mkWidgets {
  w_theme : theme;
  w_month : option nat;
  w_view : view_mode;
  w_op_no2 : Q;
  w_op_t21 : Q;
  w_blend : Overlay.blend_mode;
  w_layer : layer }.

(** The files under [DATA_DIR]: the parsed CSV, the metadata JSON, whether
    [monthly_images] exists and the RGBA images in it by file name. *)
Record files := mkFiles {
  fs_csv : option (list row);
  fs_meta : option (list (string * string));
  fs_images_dir : bool;
  fs_image : string -> option image }.

Definition loaded : Type :=
  (option (list row) * option (list (string * string)) * option string)%type.

Definition error_msg : string :=
  "Archivos no encontrados en: DATA_DIR; ejecuta python 01_download_data.py".

(** [load_data()] (lines 152-176): [FileNotFoundError] from [read_csv] or from
    [open(metadata_path)] gives [(None, None, error_msg)]. *)
Definition load_data (fs : files) : loaded :=
  match fs_csv fs with
  | None => (None, None, Some error_msg)
  | Some rows =>
      match fs_meta fs with
      | None => (None, None, Some error_msg)
      | Some m => (Some rows, Some m, None)
      end
  end.

(** [@st.cache_data]: the first call runs [load_data] and stores its value
    for the life of the process; later calls return the stored value. *)
Definition cached_load_data (cache : option loaded) (fs : files)
  : loaded * option loaded :=
  match cache with
  | Some v => (v, Some v)
  | None => let v := load_data fs in (v, Some v)
  end.

(** ** Blocks of the script *)

(** The option the selectbox returns: the user's choice, or the default
    [index=len(opts)-1]. *)
Definition choice_index (opts : list string) (choice : option nat) : nat :=
  match choice with Some i => i | None => (List.length opts - 1)%nat end.

(** [st.selectbox(label, options=opts, index=len(opts)-1)]; an empty option
    list leaves nothing to select and the following [iloc[0]] raises. *)
Definition selectbox (label : string) (opts : list string) (choice : option nat)
  : App string :=
  emit (Selectbox label opts);;
  match nth_error opts (choice_index opts choice) with
  | Some s => ret s
  | None => raise "IndexError"%string
  end.

(** [f"{x:+.1f}%"]: a finite value through the format spec; [inf], [-inf]
    and [nan] print as ["+inf%"], ["-inf%"] and ["+nan%"]. *)
Definition show_pct (x : float_val) : disp :=
  match x with
  | Fin q => DNum "+.1f%" q
  | PosInf => DText "+inf%"
  | NegInf => DText "-inf%"
  | NaN => DText "+nan%"
  end.

(** Lines 197-235: month selector, metric panel and month-over-month deltas.
    Returns [selected_month]. *)
Definition controls (df_id : nat) (choice : option nat) : App string :=
  df <- read_rows df_id;;
  let available := available_months df in
  selected_month <- selectbox "Selecciona el mes:" available choice;;
  selected <- match selected_data df selected_month with
              | Some r => ret r
              | None => raise "IndexError"%string
              end;;
  emit (Metric "NO2 (Dioxido de Nitrogeno)" (DNum ".2e mol/m2" (NO2 selected)) None);;
  emit (Metric "T21 (Temperatura de Brillo)" (DNum ".1f K" (T21 selected)) None);;
  (if (1 <? List.length df)%nat then
     match find_index selected_month df with
     | None => raise "IndexError"%string
     | Some current_idx =>
         if (0 <? current_idx)%nat then
           match nth_error df (current_idx - 1) with
           | None => raise "IndexError"%string
           | Some prev =>
               let delta_no2 := pct_change (NO2 selected) (NO2 prev) in
               let delta_t21 := (T21 selected - T21 prev)%Q in
               emit (Metric "Delta NO2" (show_pct delta_no2)
                            (Some (show_pct delta_no2)));;
               emit (Metric "Delta T21" (DNum "+.1f K" delta_t21)
                            (Some (DNum "+.1f K" delta_t21)))
           end
         else ret tt
     end
   else ret tt);;
  emit (Info "Usa las pestanas superiores para explorar diferentes visualizaciones");;
  ret selected_month.

Definition no2_file (m : string) : string := ("no2_" ++ m ++ ".png")%string.
Definition t21_file (m : string) : string := ("t21_" ++ m ++ ".png")%string.

(** [if img_path.exists(): st.image(Image.open(img_path)) else st.error(msg)] *)
Definition show_or_error (fs : files) (name msg : string) : App unit :=
  match fs_image fs name with
  | Some i => emit (ShowImage i)
  | None => emit (Error msg)
  end.

Definition legend_no2 : string := "NO2 (Dioxido de Nitrogeno): escala de colores".
Definition legend_t21 : string := "T21 (Temperatura de Brillo): escala de colores".
Definition tips : string := "Tips de uso: lado a lado, superposicion, individual".

Section Tab1.

Variable resize : image -> nat * nat -> image.

(** Lines 301-340. *)
Definition overlay_panel (fs : files) (w : widgets) (m : string) : App unit :=
  emit (Markdown "#### Mapa Superpuesto con Control de Capas");;
  emit (Slider "Opacidad NO2");;
  emit (Slider "Opacidad T21");;
  emit (Selectbox "Mezcla" ["Normal"; "Multiplicar"; "Pantalla"]);;
  match fs_image fs (no2_file m), fs_image fs (t21_file m) with
  | Some img_no2, Some img_t21 =>
      match Overlay.overlay resize (w_blend w) (w_op_no2 w) (w_op_t21 w)
              img_no2 img_t21 with
      | Some result =>
          emit (ShowImage result);;
          emit (MarkdownFmt "**NO2** (Opacidad: {:.0%})" (DNum ".0%" (w_op_no2 w)));;
          emit (MarkdownFmt "**T21** (Opacidad: {:.0%})" (DNum ".0%" (w_op_t21 w)))
      | None => raise "ValueError"%string
      end
  | _, _ => emit (Error "Una o ambas imagenes no estan disponibles")
  end.

(** Lines 245-400: the map tab. *)
Definition tab1 (fs : files) (w : widgets) (m : string) : App unit :=
  emit (Subheader ("Visualizacion Espacial - " ++ m));;
  if negb (fs_images_dir fs) then
    emit (Warning "Carpeta 'monthly_images' no encontrada. Ejecuta el script de descarga primero.")
  else
    emit (Radio "Modo de visualizacion:"
            ["Comparacion lado a lado"; "Superposicion con control"; "Vista individual"]);;
    emit (Markdown "---");;
    (match w_view w with
     | LadoALado =>
         emit (Markdown "#### NO2 - Dioxido de Nitrogeno");;
         show_or_error fs (no2_file m) ("Imagen no disponible: " ++ no2_file m);;
         emit (Markdown "#### T21 - Temperatura de Brillo (Incendios)");;
         show_or_error fs (t21_file m) ("Imagen no disponible: " ++ t21_file m)
     | Superposicion => overlay_panel fs w m
     | Individual =>
         emit (Radio "Selecciona la capa a visualizar:"
                 ["NO2 - Dioxido de Nitrogeno"; "T21 - Temperatura de Brillo (Incendios)"]);;
         emit (Markdown "---");;
         match w_layer w with
         | CapaNO2 =>
             emit (Markdown "#### NO2 - Dioxido de Nitrogeno");;
             show_or_error fs (no2_file m) "Imagen no disponible"
         | CapaT21 =>
             emit (Markdown "#### T21 - Temperatura de Brillo (Incendios)");;
             show_or_error fs (t21_file m) "Imagen no disponible"
         end
     end);;
    emit (Expander "Ver Leyendas de Colores");;
    emit (Markdown legend_no2);;
    emit (Markdown legend_t21);;
    emit (Info tips).

End Tab1.

Fixpoint qsum (l : list Q) : Q :=
  match l with [] => 0%Q | x :: l' => (x + qsum l')%Q end.

(** [Series.mean()] *)
Definition qmean (l : list Q) : Q := (qsum l / inject_Z (Z.of_nat (List.length l)))%Q.

(** [Series.max()] *)
Definition qmax (l : list Q) : Q :=
  match l with [] => 0%Q | x :: l' => fold_left Qmax l' x end.

Fixpoint first_index_of (m : Q) (l : list Q) : option nat :=
  match l with
  | [] => None
  | x :: l' => if Qeq_bool x m then Some 0%nat else option_map S (first_index_of m l')
  end.

(** [Series.idxmax()]: first position of the maximum; [ValueError] on an
    empty series. *)
Definition idxmax (l : list Q) : App nat :=
  match l with
  | [] => raise "ValueError"%string
  | _ => match first_index_of (qmax l) l with
         | Some i => ret i
         | None => raise "ValueError"%string
         end
  end.

(** Lines 521-526: the data table formats a copy of [df]. *)
Definition table_view (df_id : nat) : App unit :=
  df_display <- copy_frame df_id;;
  c <- get_column df_display "Fecha";;
  (match c with
   | CDates ds => set_column df_display "Fecha" (CFmt (map (fun d => DText (strftime_ym d)) ds))
   | _ => raise "AttributeError"%string
   end);;
  c <- get_column df_display "NO2";;
  (match c with
   | CNums qs => set_column df_display "NO2" (CFmt (map (DNum ".2e") qs))
   | _ => raise "ValueError"%string
   end);;
  c <- get_column df_display "T21";;
  (match c with
   | CNums qs => set_column df_display "T21" (CFmt (map (DNum ".2f") qs))
   | _ => raise "ValueError"%string
   end);;
  f <- get_frame df_display;;
  emit (DataTable f).

(** [np.polyfit(x, y, 1)] on a non-empty [x] divides the columns of
    [vander(x, 2)] by their norms [sqrt((lhs * lhs).sum(axis=0))].  When
    every square [x * x] rounds to [0.0] in float64 (it is at most 2^-1075:
    all [x] zero, in particular [x = range(1)]), the norm of the [x] column
    is 0, the division leaves NaN or inf in the matrix, and [lstsq] raises
    [LinAlgError] ("SVD did not converge in Linear Least Squares").  Equal
    non-zero [x] only give a [RankWarning]. *)
Definition polyfit_singular (xs : list Q) : bool :=
  forallb (fun x => Qle_bool (x * x) (1 # Pos.pow 2 1075)) xs.

(** [range(n)] as numbers. *)
Definition qrange (n : nat) : list Q := map (fun i => inject_Z (Z.of_nat i)) (seq 0 n).

(** Lines 405-526: time series, yearly statistics and the data table.
    [np.polyfit(range(len(df)), df['NO2'], 1)] (line 431, before any chart is
    shown) raises [TypeError] on an empty frame and [LinAlgError] on a
    single row. *)
Definition tab2 (df_id : nat) : App unit :=
  emit (Subheader "Evolucion Temporal - Ano 2024");;
  df <- read_rows df_id;;
  (match df with [] => raise "TypeError"%string | _ => ret tt end);;
  (if polyfit_singular (qrange (List.length df)) then raise "LinAlgError"%string
   else ret tt);;
  emit (Chart "Series temporales" (map NO2 df) (map T21 df));;
  emit (Markdown "### Estadisticas del Ano 2024");;
  emit (Metric "NO2 Promedio" (DNum ".2e" (qmean (map NO2 df))) None);;
  i <- idxmax (map NO2 df);;
  emit (Metric "NO2 Maximo" (DNum ".2e" (qmax (map NO2 df)))
          (option_map (fun r => DText (month_name (Fecha r))) (nth_error df i)));;
  emit (Metric "T21 Promedio" (DNum ".1f K" (qmean (map T21 df))) None);;
  j <- idxmax (map T21 df);;
  emit (Metric "T21 Maximo" (DNum ".1f K" (qmax (map T21 df)))
          (option_map (fun r => DText (month_name (Fecha r))) (nth_error df j)));;
  emit (Expander "Ver Tabla de Datos Completa");;
  table_view df_id.

(** Lines 531-638: scatter plot, coefficient and its interpretation.
    [np.polyfit(df['NO2'], df['T21'], 1)] (line 566, before the plot is
    shown) raises as in [tab2]. *)
Definition tab3 (df_id : nat) : App unit :=
  emit (Subheader "Analisis de Correlacion NO2 vs T21");;
  df <- read_rows df_id;;
  (match df with [] => raise "TypeError"%string | _ => ret tt end);;
  (if polyfit_singular (map NO2 df) then raise "LinAlgError"%string else ret tt);;
  emit (Chart "Relacion entre NO2 y Temperatura de Brillo" (map NO2 df) (map T21 df));;
  emit (CorrBox (map NO2 df) (map T21 df));;
  emit (Markdown "### Interpretacion").

(** Lines 643-749: static information and footer. *)
Definition tab4_footer : App unit :=
  emit (Markdown "## Acerca de este Dashboard");;
  emit (Markdown "#### NO2 (Dioxido de Nitrogeno)");;
  emit (Markdown "#### T21 (Temperatura de Brillo)");;
  emit (Markdown "---");;
  emit (Markdown "### Region de Estudio");;
  emit (Markdown "---");;
  emit (Markdown "Desarrollado con Streamlit | Datos: Google Earth Engine").

Definition css (t : theme) : string :=
  match t with
  | Oscuro => "<style> tema oscuro </style>"
  | Claro => "<style> tema claro </style>"
  end.

(** Lines 19-146, before the data is loaded. *)
Definition preamble (w : widgets) : App unit :=
  emit (PageConfig "NO2 y T21 - Peninsula de Yucatan");;
  emit (Radio "Tema:" ["Claro"; "Oscuro"]);;
  emit (Markdown (css (w_theme w))).

(** [st.cache_data] hands each run its own copy of the cached value. *)
Definition alloc_opt {A : Type} (mk : A -> obj) (o : option A) : App (option nat) :=
  match o with
  | Some a => p <- alloc (mk a);; ret (Some p)
  | None => ret None
  end.

(** Lines 183-187: [if error: st.error(...); st.info(...); st.code(...);
    st.stop()]; an empty string is falsy. *)
Definition error_gate (error : option string) : App unit :=
  match error with
  | Some msg =>
      if String.eqb msg "" then ret tt
      else
        emit (Error msg);;
        emit (Info "Asegurate de haber autenticado Earth Engine antes de ejecutar el script");;
        emit (Code "import ee; ee.Authenticate(); ee.Initialize(project='tu-proyecto')");;
        stop
  | None => ret tt
  end.

Definition tab_names : list string :=
  ["Mapa Interactivo"; "Series Temporales"; "Analisis de Correlacion"; "Informacion"].

Section Page.

Variable resize : image -> nat * nat -> image.

(** Lines 192-749, once the data is available. *)
Definition dashboard (fs : files) (w : widgets) (df_id : nat) : App unit :=
  emit (Markdown "NO2 y T21 (Incendios) en la Peninsula de Yucatan");;
  emit (Markdown "Analisis de datos satelitales mensuales - 2024");;
  selected_month <- controls df_id (w_month w);;
  emit (Tabs tab_names);;
  tab1 resize fs w selected_month;;
  tab2 df_id;;
  tab3 df_id;;
  tab4_footer.

(** One run of the script, given the value [load_data()] returned. *)
Definition page (v : loaded) (fs : files) (w : widgets) : App unit :=
  preamble w;;
  let '(df_v, metadata_v, error) := v in
  df <- alloc_opt (fun rows => OFrame (frame_of_rows rows)) df_v;;
  metadata <- alloc_opt OMeta metadata_v;;
  error_gate error;;
  match df with
  | Some df_id => dashboard fs w df_id
  | None => raise "TypeError"%string
  end.

(** A run in a process whose [load_data] cache is [cache]: the page, the
    heap, how the run ended, and the cache afterwards. *)
Definition run (cache : option loaded) (fs : files) (w : widgets)
  : (list elem * heap * (halt + unit)) * option loaded :=
  let (v, cache') := cached_load_data cache fs in
  (page v fs w [], cache').

End Page.

End Dash.

(** ** Frame conditions on the heap *)

Module HeapFrame.

Import Dash.

(** The heap a fragment leaves behind. *)
Definition heap_after {A : Type} (m : App A) (h : heap) : heap := snd (fst (m h)).

(** The fragment only allocates: every object that existed before is still
    there, unchanged, at the same position. *)
Definition extends {A : Type} (m : App A) : Prop :=
  forall h, exists s, heap_after m h = (h ++ s)%list.

(** The first [n] objects of the heap are left as they are. *)
Definition keeps {A : Type} (n : nat) (m : App A) : Prop :=
  forall h, (n <= List.length h)%nat ->
    firstn n (heap_after m h) = firstn n h /\ (n <= List.length (heap_after m h))%nat.

End HeapFrame.

(** ** Concrete inputs *)

Module Samples.

(** Pillow's [Image.Resampling.NEAREST] filter, a concrete resampling. *)
Definition resize_nearest (i : image) (s : nat * nat) : image :=
  let (w, h) := s in
  mkImage w h
    (map (fun y =>
            let src_row := nth (y * im_h i / h) (im_px i) [] in
            map (fun x => nth (x * im_w i / w) src_row (mkRGBA 0 0 0 0)) (seq 0 w))
         (seq 0 h)).

(** Two 2x1 RGBA rasters with partly transparent pixels, and a 1x1 one. *)
Definition img_a : image :=
  mkImage 2 1 [[mkRGBA 200 30 40 128; mkRGBA 0 0 0 0]].
Definition img_b : image :=
  mkImage 2 1 [[mkRGBA 250 140 60 255; mkRGBA 10 10 10 90]].
Definition img_c : image := mkImage 1 1 [[mkRGBA 5 6 7 255]].
Definition img_clear : image := mkImage 1 1 [[mkRGBA 10 20 30 0]].

(** Three monthly rows and the heap right after loading them. *)
Definition row_jan : row := mkRow (mkDate 2024 1 15) (12 # 100000) 300.
Definition row_feb : row := mkRow (mkDate 2024 2 15) (15 # 100000) 312.
Definition row_mar : row := mkRow (mkDate 2024 3 15) (9 # 100000) 305.
Definition rows_2024 : list row := [row_jan; row_feb; row_mar].
Definition heap_2024 : Dash.heap := [Dash.OFrame (Dash.frame_of_rows rows_2024)].

Definition meta_2024 : list (string * string) :=
  [("region", "Peninsula de Yucatan"); ("anio", "2024")]%string.

(** Both data files present; of the February rasters only the NO2 one. *)
Definition files_feb_no_t21 : Dash.files :=
  Dash.mkFiles (Some rows_2024) (Some meta_2024) true
    (fun n => if String.eqb n "no2_2024-02.png" then Some img_c else None).

(** The CSV file missing. *)
Definition files_no_csv : Dash.files :=
  Dash.mkFiles None (Some meta_2024) true (fun _ => None).

Definition widgets_side : Dash.widgets :=
  Dash.mkWidgets Dash.Claro (Some 1%nat) Dash.LadoALado 1 (1 # 2) Overlay.Normal Dash.CapaNO2.
Definition widgets_overlay : Dash.widgets :=
  Dash.mkWidgets Dash.Claro (Some 1%nat) Dash.Superposicion 1 (1 # 2) Overlay.Normal Dash.CapaNO2.

(** Three rows of 2024 with the same NO2 value [2^-13] in every month. *)
Definition rows_const_no2 : list row :=
  [mkRow (mkDate 2024 1 15) (1 # 8192) 300; mkRow (mkDate 2024 2 15) (1 # 8192) 310;
   mkRow (mkDate 2024 3 15) (1 # 8192) 305].

Definition files_const_no2 : Dash.files :=
  Dash.mkFiles (Some rows_const_no2) (Some meta_2024) true (fun _ => None).

(** The individual view on the T21 layer. *)
Definition widgets_individual_t21 : Dash.widgets :=
  Dash.mkWidgets Dash.Claro (Some 1%nat) Dash.Individual 1 (1 # 2) Overlay.Normal Dash.CapaT21.

End Samples.

(** * Proofs *)

(** ** Pillow facts *)

Module PILFacts.

Local Open Scope Z_scope.

Lemma byte_range_check (f : Z -> bool) :
  forallb (fun n => f (Z.of_nat n)) (seq 0 256) = true ->
  forall z, byte_ok z = true -> f z = true.
Proof.
  intros H z Hz. unfold byte_ok in Hz.
  apply andb_true_iff in Hz as [H1 H2]. apply Z.leb_le in H1, H2.
  rewrite forallb_forall in H. specialize (H (Z.to_nat z)).
  rewrite Z2Nat.id in H by lia. apply H. apply in_seq. lia.
Qed.

(** With an opaque source pixel the channel arithmetic returns the source
    channel. *)
Lemma chan_opaque (s : Z) : byte_ok s = true ->
  u8 (Z.shiftr (SHIFTFORDIV255 (s * 32640 + 16384)) 7) = s.
Proof.
  intros Hs. apply Z.eqb_eq.
  apply (byte_range_check
           (fun s => u8 (Z.shiftr (SHIFTFORDIV255 (s * 32640 + 16384)) 7) =? s));
    [vm_compute; reflexivity | exact Hs].
Qed.

Lemma composite_opaque_src (d p : rgba) :
  px_ok p = true -> composite_px d (set_alpha 255 p) = set_alpha 255 p.
Proof.
  destruct p as [r g b a]. unfold px_ok; cbn [pr pg pb pa].
  intros H. apply andb_true_iff in H as [H Ha].
  apply andb_true_iff in H as [H Hb]. apply andb_true_iff in H as [Hr Hg].
  unfold composite_px, set_alpha; cbn [pa pr pg pb].
  replace (pa d * (255 - 255)) with 0 by ring.
  cbn -[u8 SHIFTFORDIV255 Z.shiftr].
  rewrite !Z.mul_0_r, !Z.add_0_r.
  rewrite !chan_opaque by assumption. reflexivity.
Qed.

Lemma composite_transparent_src (d p : rgba) :
  composite_px d (set_alpha 0 p) = d.
Proof. reflexivity. Qed.

Lemma zip_with_right {A B : Type} (f : A -> B -> B) (l1 : list A) (l2 : list B) :
  List.length l1 = List.length l2 ->
  (forall x y, In x l1 -> In y l2 -> f x y = y) ->
  zip_with f l1 l2 = l2.
Proof.
  revert l2; induction l1 as [|x l1 IH]; intros [|y l2] Hlen Hf;
    simpl in *; try discriminate; auto.
  rewrite Hf by auto. f_equal. apply IH; auto.
Qed.

Lemma zip_with_left {A B : Type} (f : A -> B -> A) (l1 : list A) (l2 : list B) :
  List.length l1 = List.length l2 ->
  (forall x y, In x l1 -> In y l2 -> f x y = x) ->
  zip_with f l1 l2 = l1.
Proof.
  revert l2; induction l1 as [|x l1 IH]; intros [|y l2] Hlen Hf;
    simpl in *; try discriminate; auto.
  rewrite Hf by auto. f_equal. apply IH; auto.
Qed.

Lemma img_ok_spec (i : image) :
  img_ok i = true ->
  List.length (im_px i) = im_h i /\
  forall row, In row (im_px i) ->
    List.length row = im_w i /\ forall p, In p row -> px_ok p = true.
Proof.
  unfold img_ok. intros H. apply andb_true_iff in H as [Hh Hrows].
  apply Nat.eqb_eq in Hh. split; [exact Hh|].
  intros row Hrow. rewrite forallb_forall in Hrows.
  specialize (Hrows row Hrow). apply andb_true_iff in Hrows as [Hw Hp].
  apply Nat.eqb_eq in Hw. rewrite forallb_forall in Hp. auto.
Qed.

Lemma size_eqb_true (i j : image) : size i = size j -> size_eqb i j = true.
Proof.
  unfold size, size_eqb. intros H. injection H as Hw Hh.
  rewrite Hw, Hh, !Nat.eqb_refl. reflexivity.
Qed.

Lemma size_eqb_false (i j : image) : size i <> size j -> size_eqb i j = false.
Proof.
  unfold size, size_eqb. intros H.
  destruct (Nat.eqb_spec (im_w i) (im_w j)), (Nat.eqb_spec (im_h i) (im_h j));
    simpl; auto; congruence.
Qed.

Lemma size_putalpha (i : image) (a : Z) : size (putalpha i a) = size i.
Proof. reflexivity. Qed.

Lemma in_repeat {A : Type} (x y : A) (n : nat) : In y (repeat x n) -> y = x.
Proof. intros H. apply repeat_spec in H. exact H. Qed.

End PILFacts.

(** ** The overlay view *)

Module OverlayFacts.

Import PILFacts Overlay.

Local Open Scope Z_scope.

Lemma alpha_of_opacity_1 : alpha_of_opacity 1 = 255.
Proof. reflexivity. Qed.

Lemma alpha_of_opacity_0 : alpha_of_opacity 0 = 0.
Proof. reflexivity. Qed.

Lemma match_size_same resize (no2 t21 : image) :
  size no2 = size t21 -> match_size resize no2 t21 = t21.
Proof. intros H. unfold match_size. rewrite size_eqb_true by exact H. reflexivity. Qed.

Lemma match_size_diff resize (no2 t21 : image) :
  size no2 <> size t21 -> match_size resize no2 t21 = resize t21 (size no2).
Proof. intros H. unfold match_size. rewrite size_eqb_false by exact H. reflexivity. Qed.

Lemma size_eqb_spec (i j : image) : size_eqb i j = true <-> size i = size j.
Proof.
  unfold size_eqb, size. rewrite andb_true_iff, !Nat.eqb_eq.
  split; [intros [-> ->]; reflexivity | intros H; injection H; auto].
Qed.

Lemma size_match_size resize (no2 t21 : image) :
  (forall i s, size (resize i s) = s) -> size (match_size resize no2 t21) = size no2.
Proof.
  intros Hr. unfold match_size. destruct (size_eqb no2 t21) eqn:E; simpl.
  - apply size_eqb_spec in E. symmetry. exact E.
  - apply Hr.
Qed.

Lemma first_composite (no2 : image) (a : Z) :
  alpha_composite (new_rgba (im_w no2) (im_h no2) white) (putalpha no2 a) =
  Some (mkImage (im_w no2) (im_h no2)
          (zip_with (zip_with composite_px) (repeat (repeat white (im_w no2)) (im_h no2))
                    (map (map (set_alpha a)) (im_px no2)))).
Proof. unfold alpha_composite. rewrite size_eqb_true by reflexivity. reflexivity. Qed.

(** The white base always has the NO2 size, so the first composition
    succeeds; what remains is the composition with the T21 layer. *)
Lemma overlay_eq resize blend o1 o2 (no2 t21 : image) :
  overlay resize blend o1 o2 no2 t21 =
  alpha_composite
    (mkImage (im_w no2) (im_h no2)
       (zip_with (zip_with composite_px) (repeat (repeat white (im_w no2)) (im_h no2))
                 (map (map (set_alpha (alpha_of_opacity o1))) (im_px no2))))
    (putalpha (match_size resize no2 t21) (alpha_of_opacity o2)).
Proof. unfold overlay. cbv beta zeta. rewrite first_composite. reflexivity. Qed.

Lemma map_ext_id {A : Type} (f : A -> A) (l : list A) :
  (forall x, In x l -> f x = x) -> map f l = l.
Proof.
  induction l as [|x l IH]; intros Hf; simpl; [reflexivity|].
  rewrite Hf by (left; reflexivity). f_equal. apply IH. intros y Hy. apply Hf. right. exact Hy.
Qed.

Lemma in_zip_with {A B C : Type} (f : A -> B -> C) l1 l2 z :
  In z (zip_with f l1 l2) -> exists x y, In x l1 /\ In y l2 /\ z = f x y.
Proof.
  revert l2; induction l1 as [|x l1 IH]; intros [|y l2] Hz; simpl in Hz; try contradiction.
  destruct Hz as [<- | Hz].
  - exists x, y. simpl. auto.
  - destruct (IH l2 Hz) as (x' & y' & H1 & H2 & ->). exists x', y'. simpl. auto.
Qed.

Lemma length_zip_with {A B C : Type} (f : A -> B -> C) l1 l2 :
  List.length (zip_with f l1 l2) = Nat.min (List.length l1) (List.length l2).
Proof.
  revert l2; induction l1 as [|x l1 IH]; intros [|y l2]; simpl; auto.
Qed.

(** Compositing a layer of opaque, well-formed rows over rows of the same
    shape gives the layer. *)
Lemma composite_rows_opaque (rows : list (list rgba)) (src : list (list rgba)) w :
  List.length rows = List.length src ->
  (forall x, In x rows -> List.length x = w) ->
  (forall row, In row src -> List.length row = w /\ forall p, In p row -> px_ok p = true) ->
  zip_with (zip_with composite_px) rows (map (map (set_alpha 255)) src) =
  map (map (set_alpha 255)) src.
Proof.
  intros Hlen Hx Hsrc. apply zip_with_right.
  - rewrite length_map. exact Hlen.
  - intros x y Hxin Hy. apply in_map_iff in Hy as [row [<- Hrow]].
    destruct (Hsrc row Hrow) as [Hw Hp].
    apply zip_with_right.
    + rewrite length_map, Hw. apply Hx. exact Hxin.
    + intros d q _ Hq. apply in_map_iff in Hq as [p [<- Hpin]].
      apply composite_opaque_src. apply Hp. exact Hpin.
Qed.

(** Compositing a fully transparent layer of the same shape changes
    nothing. *)
Lemma composite_rows_clear (rows : list (list rgba)) (src : list (list rgba)) w :
  List.length rows = List.length src ->
  (forall x, In x rows -> List.length x = w) ->
  (forall row, In row src -> List.length row = w) ->
  zip_with (zip_with composite_px) rows (map (map (set_alpha 0)) src) = rows.
Proof.
  intros Hlen Hx Hsrc. apply zip_with_left.
  - rewrite length_map. exact Hlen.
  - intros x y Hxin Hy. apply in_map_iff in Hy as [row [<- Hrow]].
    apply zip_with_left.
    + rewrite length_map, (Hsrc row Hrow). apply Hx. exact Hxin.
    + intros d q _ Hq. apply in_map_iff in Hq as [p [<- _]].
      apply composite_transparent_src.
Qed.

Lemma rows_of_repeat (c : rgba) w h x :
  In x (repeat (repeat c w) h) -> List.length x = w.
Proof. intros H. apply in_repeat in H. subst x. apply repeat_length. Qed.

Lemma rows_of_zip (rows src : list (list rgba)) w x :
  (forall r, In r rows -> List.length r = w) ->
  (forall r, In r src -> List.length r = w) ->
  In x (zip_with (zip_with composite_px) rows src) -> List.length x = w.
Proof.
  intros H1 H2 Hx. apply in_zip_with in Hx as (r1 & r2 & Hr1 & Hr2 & ->).
  rewrite length_zip_with, (H1 r1 Hr1), (H2 r2 Hr2). apply Nat.min_id.
Qed.

Lemma rows_of_map (a : Z) (src : list (list rgba)) w x :
  (forall r, In r src -> List.length r = w) ->
  In x (map (map (set_alpha a)) src) -> List.length x = w.
Proof.
  intros H Hx. apply in_map_iff in Hx as [r [<- Hr]]. rewrite length_map. auto.
Qed.

Lemma putalpha_same_rgb (i j : image) (a : Z) :
  same_rgb i j -> putalpha i a = putalpha j a.
Proof.
  intros (Hw & Hh & Hpx). unfold putalpha. rewrite Hw, Hh. f_equal.
  assert (E : forall px : list (list rgba),
             map (map (set_alpha a)) px =
             map (map (fun c : Z * Z * Z => let '(r, g, b) := c in mkRGBA r g b a))
                 (map (map rgb) px)).
  { intros px. rewrite map_map. apply map_ext. intros row. rewrite map_map. reflexivity. }
  rewrite !E, Hpx. reflexivity.
Qed.

(** C1.  With the NO2 opacity at 1.0 and the T21 opacity at 0.0, the overlay
    of two well-formed rasters of the same size is the NO2 raster with its
    alpha band set to 255 (colour bands unchanged); it is the NO2 raster
    itself exactly when that raster is already fully opaque. *)
Theorem overlay_no2_full_t21_clear resize blend (img_no2 img_t21 : image)
  (Hno2 : img_ok img_no2 = true) (Ht21 : img_ok img_t21 = true)
  (Hsize : size img_no2 = size img_t21) :
  overlay resize blend 1 0 img_no2 img_t21 = Some (putalpha img_no2 255) /\
  (all_opaque img_no2 = true ->
   overlay resize blend 1 0 img_no2 img_t21 = Some img_no2).
Proof.
  assert (Hov : overlay resize blend 1 0 img_no2 img_t21 = Some (putalpha img_no2 255)).
  { destruct (img_ok_spec img_no2 Hno2) as [Hh1 Hr1].
    destruct (img_ok_spec img_t21 Ht21) as [Hh2 Hr2].
    pose proof Hsize as Hs. unfold size in Hs. injection Hs as Hw Hh.
    rewrite overlay_eq, match_size_same by exact Hsize.
    rewrite alpha_of_opacity_1, alpha_of_opacity_0.
    rewrite (composite_rows_opaque _ _ (im_w img_no2)).
    2: { rewrite repeat_length. symmetry. exact Hh1. }
    2: { intros x Hx. exact (rows_of_repeat _ _ _ x Hx). }
    2: { exact Hr1. }
    unfold alpha_composite. rewrite size_eqb_true by exact Hsize.
    unfold putalpha; cbn [im_px im_w im_h].
    rewrite (composite_rows_clear _ _ (im_w img_no2)).
    - reflexivity.
    - rewrite !length_map, Hh1, Hh2. exact Hh.
    - intros x Hx. apply (rows_of_map 255 (im_px img_no2)); [|exact Hx].
      intros r Hr. apply Hr1. exact Hr.
    - intros r Hr. rewrite Hw. apply Hr2. exact Hr. }
  split; [exact Hov|].
  intros Hop. rewrite Hov. f_equal.
  destruct img_no2 as [w h px]. unfold putalpha; simpl. f_equal.
  unfold all_opaque in Hop; simpl in Hop. rewrite forallb_forall in Hop.
  apply map_ext_id. intros row Hrow. apply map_ext_id. intros p Hp.
  specialize (Hop row Hrow). rewrite forallb_forall in Hop.
  specialize (Hop p Hp). apply Z.eqb_eq in Hop.
  destruct p as [r g b a]; unfold set_alpha; simpl in *. subst a. reflexivity.
Qed.

(** With a resampling that returns the requested size, the overlay never
    fails. *)
Lemma overlay_some resize (Hresize : forall i s, size (resize i s) = s)
  blend o1 o2 (img_no2 img_t21 : image) :
  exists out, overlay resize blend o1 o2 img_no2 img_t21 = Some out.
Proof.
  rewrite overlay_eq. unfold alpha_composite.
  rewrite size_eqb_true; [eexists; reflexivity|].
  rewrite size_putalpha, size_match_size by exact Hresize. reflexivity.
Qed.

(** C6.  For a resampling that returns the requested size, the overlay always
    succeeds and has the NO2 raster's size; a T21 raster of another size is
    resized to the NO2 size, and one of the same size is used as it is, so
    that the result does not depend on the resampling at all. *)
Theorem overlay_size_matches_no2 resize
  (Hresize : forall i s, size (resize i s) = s)
  blend o1 o2 (img_no2 img_t21 : image) :
  (exists out, overlay resize blend o1 o2 img_no2 img_t21 = Some out /\
               size out = size img_no2) /\
  (size img_no2 <> size img_t21 ->
   match_size resize img_no2 img_t21 = resize img_t21 (size img_no2)) /\
  (size img_no2 = size img_t21 ->
   match_size resize img_no2 img_t21 = img_t21 /\
   forall resize', overlay resize' blend o1 o2 img_no2 img_t21 =
                   overlay resize blend o1 o2 img_no2 img_t21).
Proof.
  split; [|split].
  - rewrite overlay_eq. unfold alpha_composite.
    rewrite size_eqb_true.
    + eexists. split; reflexivity.
    + rewrite size_putalpha, size_match_size by exact Hresize. reflexivity.
  - apply match_size_diff.
  - intros Hs. split; [apply match_size_same; exact Hs|].
    intros resize'. rewrite !overlay_eq, !match_size_same by exact Hs. reflexivity.
Qed.

Lemma alpha_of_opacity_floor (op : Q) :
  (0 <= op)%Q -> alpha_of_opacity op = Qfloor ((255 # 1) * op).
Proof.
  intros H. unfold alpha_of_opacity, Qfloor.
  destruct ((255 # 1) * op)%Q as [n d] eqn:E. cbv zeta. cbn [Qnum Qden].
  assert (0 <= n).
  { assert (Hq : (0 <= (255 # 1) * op)%Q).
    { apply Qmult_le_0_compat; [discriminate | exact H]. }
    rewrite E in Hq. unfold Qle in Hq. cbn in Hq. lia. }
  apply Z.quot_div_nonneg; lia.
Qed.

Lemma nth_error_zip_with {A B C : Type} (f : A -> B -> C) l1 l2 n a b :
  nth_error l1 n = Some a -> nth_error l2 n = Some b ->
  nth_error (zip_with f l1 l2) n = Some (f a b).
Proof.
  revert l1 l2; induction n as [|n IH]; intros [|a' l1] [|b' l2] H1 H2;
    cbn in *; try discriminate.
  - injection H1 as ->. injection H2 as ->. reflexivity.
  - apply IH; assumption.
Qed.

Lemma getpixel_new_rgba (w h : nat) (c : rgba) x y :
  (x < w)%nat -> (y < h)%nat -> getpixel (new_rgba w h c) x y = Some c.
Proof.
  intros Hx Hy. unfold getpixel, new_rgba; cbn [im_px].
  rewrite nth_error_repeat by exact Hy. apply nth_error_repeat. exact Hx.
Qed.

Lemma getpixel_putalpha (i : image) (a : Z) x y p :
  getpixel i x y = Some p -> getpixel (putalpha i a) x y = Some (set_alpha a p).
Proof.
  unfold getpixel, putalpha; cbn [im_px]. rewrite nth_error_map.
  destruct (nth_error (im_px i) y) as [row|]; cbn; [|discriminate].
  intros H. rewrite nth_error_map, H. reflexivity.
Qed.

Lemma getpixel_bounds (i : image) x y p :
  img_ok i = true -> getpixel i x y = Some p -> (x < im_w i)%nat /\ (y < im_h i)%nat.
Proof.
  intros Hok. destruct (img_ok_spec i Hok) as [Hh Hrows].
  unfold getpixel. destruct (nth_error (im_px i) y) as [row|] eqn:Ey; [|discriminate].
  intros Ex.
  assert (Hy : (y < List.length (im_px i))%nat) by (apply nth_error_Some; congruence).
  assert (Hx : (x < List.length row)%nat) by (apply nth_error_Some; congruence).
  destruct (Hrows row (nth_error_In _ _ Ey)) as [Hw _]. lia.
Qed.

Lemma getpixel_composite (i j k : image) x y p q :
  alpha_composite i j = Some k -> getpixel i x y = Some p -> getpixel j x y = Some q ->
  getpixel k x y = Some (composite_px p q).
Proof.
  unfold alpha_composite. destruct (size_eqb i j); [|discriminate].
  intros E. injection E as <-. unfold getpixel; cbn [im_px].
  destruct (nth_error (im_px i) y) as [ri|] eqn:Ei; [|discriminate].
  destruct (nth_error (im_px j) y) as [rj|] eqn:Ej; [|discriminate].
  intros Hp Hq. rewrite (nth_error_zip_with _ _ _ _ _ _ Ei Ej).
  apply nth_error_zip_with; assumption.
Qed.

(** C10.  Each layer's alpha band is replaced by the uniform value
    [int(255 * opacity)], the integer part of [255 * opacity] for the
    sliders' non-negative opacities.  For a resampling that returns the
    requested size and a well-formed NO2 raster, the overlay succeeds, has
    the NO2 size, and its pixel at [(x, y)] is the white base pixel
    composited first with the NO2 pixel whose alpha is set to
    [int(255 * opacity_no2)], then with the (size-matched) T21 pixel whose
    alpha is set to [int(255 * opacity_t21)]: the layers' own alpha values
    do not enter.  The result ignores the NO2 raster's own alpha band, and
    the T21 raster's own alpha band when it is not resized.  With both
    opacities at 0.0 the result is the white base, and with the T21 opacity
    at 1.0 it is the T21 raster made opaque, whatever the NO2 opacity. *)
Theorem overlay_layers_putalpha_order resize blend o1 o2 (img_no2 img_t21 : image) :
  (forall op, (0 <= op)%Q ->
     (inject_Z (alpha_of_opacity op) <= (255 # 1) * op)%Q /\
     ((255 # 1) * op < inject_Z (alpha_of_opacity op + 1))%Q) /\
  ((forall i s, size (resize i s) = s) -> img_ok img_no2 = true ->
   exists out, overlay resize blend o1 o2 img_no2 img_t21 = Some out /\
     size out = size img_no2 /\
     forall x y p1 p2, getpixel img_no2 x y = Some p1 ->
       getpixel (match_size resize img_no2 img_t21) x y = Some p2 ->
       getpixel out x y =
         Some (composite_px (composite_px white (set_alpha (alpha_of_opacity o1) p1))
                            (set_alpha (alpha_of_opacity o2) p2))) /\
  (forall img_no2', same_rgb img_no2 img_no2' ->
     overlay resize blend o1 o2 img_no2' img_t21 =
     overlay resize blend o1 o2 img_no2 img_t21) /\
  (forall img_t21', size img_no2 = size img_t21 -> same_rgb img_t21 img_t21' ->
     overlay resize blend o1 o2 img_no2 img_t21' =
     overlay resize blend o1 o2 img_no2 img_t21) /\
  (img_ok img_no2 = true -> img_ok img_t21 = true -> size img_no2 = size img_t21 ->
     overlay resize blend 0 0 img_no2 img_t21 =
       Some (new_rgba (im_w img_no2) (im_h img_no2) white) /\
     overlay resize blend o1 1 img_no2 img_t21 = Some (putalpha img_t21 255)).
Proof.
  split; [|split; [|split; [|split]]].
  - intros op Hop. rewrite alpha_of_opacity_floor by exact Hop.
    split; [apply Qfloor_le | apply Qlt_floor].
  - intros Hr Hok.
    set (t := match_size resize img_no2 img_t21).
    set (r1 := mkImage (im_w img_no2) (im_h img_no2)
          (zip_with (zip_with composite_px) (repeat (repeat white (im_w img_no2)) (im_h img_no2))
                    (map (map (set_alpha (alpha_of_opacity o1))) (im_px img_no2)))).
    assert (E1 : alpha_composite (new_rgba (im_w img_no2) (im_h img_no2) white)
                   (putalpha img_no2 (alpha_of_opacity o1)) = Some r1)
      by apply first_composite.
    assert (Hs : size_eqb r1 (putalpha t (alpha_of_opacity o2)) = true).
    { apply size_eqb_true. rewrite size_putalpha. unfold t.
      rewrite size_match_size by exact Hr. reflexivity. }
    set (out := mkImage (im_w r1) (im_h r1)
          (zip_with (zip_with composite_px) (im_px r1)
                    (im_px (putalpha t (alpha_of_opacity o2))))).
    assert (E2 : alpha_composite r1 (putalpha t (alpha_of_opacity o2)) = Some out)
      by (unfold alpha_composite; rewrite Hs; reflexivity).
    exists out. split; [|split].
    + rewrite overlay_eq. exact E2.
    + reflexivity.
    + intros x y p1 p2 H1 H2.
      destruct (getpixel_bounds img_no2 x y p1 Hok H1) as [Hx Hy].
      apply (getpixel_composite _ _ _ _ _ _ _ E2).
      * apply (getpixel_composite _ _ _ _ _ _ _ E1).
        -- apply getpixel_new_rgba; assumption.
        -- apply getpixel_putalpha. exact H1.
      * apply getpixel_putalpha. exact H2.
  - intros no2' Hs. pose proof Hs as (Hw & Hh & _).
    unfold overlay, match_size, size, size_eqb. cbv beta zeta.
    rewrite (putalpha_same_rgb no2' img_no2).
    + rewrite Hw, Hh. reflexivity.
    + destruct Hs as (Hw' & Hh' & Hpx). unfold same_rgb. auto.
  - intros t21' Hsize Hs.
    assert (Hsize' : size img_no2 = size t21').
    { destruct Hs as (Hw & Hh & _). rewrite Hsize. unfold size. rewrite Hw, Hh. reflexivity. }
    rewrite !overlay_eq, (match_size_same _ _ _ Hsize), (match_size_same _ _ _ Hsize').
    rewrite (putalpha_same_rgb img_t21 t21' _ Hs). reflexivity.
  - intros Hno2 Ht21 Hsize.
    destruct (img_ok_spec img_no2 Hno2) as [Hh1 Hr1].
    destruct (img_ok_spec img_t21 Ht21) as [Hh2 Hr2].
    pose proof Hsize as Hs. unfold size in Hs. injection Hs as Hw Hh.
    split.
    + rewrite overlay_eq, match_size_same by exact Hsize.
      rewrite alpha_of_opacity_0.
      rewrite (composite_rows_clear _ _ (im_w img_no2)).
      2: { rewrite repeat_length. symmetry. exact Hh1. }
      2: { intros x Hx. exact (rows_of_repeat _ _ _ x Hx). }
      2: { intros r Hr. apply Hr1. exact Hr. }
      unfold alpha_composite. rewrite size_eqb_true by exact Hsize.
    unfold putalpha; cbn [im_px im_w im_h].
      rewrite (composite_rows_clear _ _ (im_w img_no2)).
      * reflexivity.
      * rewrite repeat_length, Hh2. exact Hh.
      * intros x Hx. exact (rows_of_repeat _ _ _ x Hx).
      * intros r Hr. rewrite Hw. apply Hr2. exact Hr.
    + rewrite overlay_eq, match_size_same by exact Hsize.
      rewrite alpha_of_opacity_1.
      unfold alpha_composite. rewrite size_eqb_true by exact Hsize.
    unfold putalpha; cbn [im_px im_w im_h].
      rewrite (composite_rows_opaque _ _ (im_w img_no2)).
      * unfold putalpha. rewrite <- Hw, <- Hh. reflexivity.
      * rewrite length_zip_with, repeat_length, length_map, Hh1, Hh2, Hh.
        apply Nat.min_id.
      * intros x Hx. eapply rows_of_zip; [| |exact Hx].
        -- intros r Hr. exact (rows_of_repeat _ _ _ r Hr).
        -- intros r Hr. eapply rows_of_map; [|exact Hr].
           intros r' Hr'. apply Hr1. exact Hr'.
      * intros r Hr. rewrite Hw. apply Hr2. exact Hr.
Qed.

End OverlayFacts.

(** ** The overlay view on concrete rasters *)

Module OverlayChecks.

Import Overlay OverlayFacts Samples.

Lemma overlay_no2_full_t21_clear_witness :
  img_ok img_a = true /\ img_ok img_b = true /\ size img_a = size img_b /\
  overlay resize_nearest Normal 1 0 img_a img_b = Some (putalpha img_a 255).
Proof.
  split; [reflexivity|]. split; [reflexivity|]. split; [reflexivity|].
  exact (proj1 (overlay_no2_full_t21_clear resize_nearest Normal img_a img_b
                  eq_refl eq_refl eq_refl)).
Defined.

(** C1 as stated fails: a transparent NO2 pixel comes out opaque, so the
    overlay at opacities 1.0/0.0 is not the NO2 raster. *)
Lemma overlay_no2_full_not_identity :
  img_ok img_clear = true /\ size img_clear = size img_clear /\
  overlay resize_nearest Normal 1 0 img_clear img_clear <> Some img_clear.
Proof.
  split; [reflexivity|]. split; [reflexivity|].
  vm_compute. intros H. inversion H.
Qed.

Lemma overlay_size_matches_no2_witness :
  (forall i s, size (resize_nearest i s) = s) /\
  exists out, overlay resize_nearest Normal (1 # 2) (1 # 2) img_a img_c = Some out /\
              size out = size img_a.
Proof.
  assert (Hr : forall i s, size (resize_nearest i s) = s)
    by (intros i [w h]; reflexivity).
  split; [exact Hr|].
  exact (proj1 (overlay_size_matches_no2 resize_nearest Hr Normal (1 # 2) (1 # 2)
                  img_a img_c)).
Defined.

Lemma overlay_layers_putalpha_order_witness :
  ((inject_Z (alpha_of_opacity (1 # 2)) <= (255 # 1) * (1 # 2))%Q /\
   ((255 # 1) * (1 # 2) < inject_Z (alpha_of_opacity (1 # 2) + 1))%Q) /\
  (exists out, overlay resize_nearest Normal (1 # 2) 1 img_a img_c = Some out /\
     size out = size img_a /\
     forall x y p1 p2, getpixel img_a x y = Some p1 ->
       getpixel (match_size resize_nearest img_a img_c) x y = Some p2 ->
       getpixel out x y =
         Some (composite_px (composite_px white (set_alpha (alpha_of_opacity (1 # 2)) p1))
                            (set_alpha (alpha_of_opacity 1) p2))) /\
  overlay resize_nearest Normal 0 0 img_a img_b = Some (new_rgba 2 1 white) /\
  overlay resize_nearest Normal (1 # 2) 1 img_a img_b = Some (putalpha img_b 255).
Proof.
  assert (Hr : forall i s, size (resize_nearest i s) = s) by (intros i [w h]; reflexivity).
  destruct (overlay_layers_putalpha_order resize_nearest Normal (1 # 2) 1 img_a img_c)
    as (H1 & H2 & _ & _ & _).
  destruct (overlay_layers_putalpha_order resize_nearest Normal (1 # 2) 1 img_a img_b)
    as (_ & _ & _ & _ & H5).
  split; [apply H1; discriminate|]. split; [exact (H2 Hr eq_refl)|].
  exact (H5 eq_refl eq_refl eq_refl).
Defined.

End OverlayChecks.

(** ** Month selector and data frame *)

Module DataFacts.

Lemma in_insert_sorted (x y : string) (l : list string) :
  In y (insert_sorted x l) <-> In y (x :: l).
Proof.
  induction l as [|z l IH]; simpl; [reflexivity|].
  destruct (String.leb x z); simpl; [reflexivity|]. rewrite IH. simpl. tauto.
Qed.

Lemma in_sorted (y : string) (l : list string) : In y (sorted l) <-> In y l.
Proof.
  induction l as [|x l IH]; simpl; [tauto|].
  rewrite in_insert_sorted. simpl. rewrite IH. reflexivity.
Qed.

Lemma in_unique (y : string) (l : list string) : In y (unique l) <-> In y l.
Proof.
  induction l as [|x l IH]; simpl; [tauto|].
  rewrite filter_In, IH. split.
  - intros [H | [H _]]; auto.
  - intros [H | H]; [auto|].
    destruct (String.eqb_spec x y) as [E|E]; [left; exact E|].
    right. split; [exact H|]. reflexivity.
Qed.

Lemma in_available_months (m : string) (df : list row) :
  In m (available_months df) <-> In m (months df).
Proof. unfold available_months. rewrite in_sorted, in_unique. reflexivity. Qed.

Lemma find_index_some (m : string) (df : list row) (k : nat) :
  find_index m df = Some k ->
  exists r, nth_error df k = Some r /\ strftime_ym (Fecha r) = m /\
    forall j r', (j < k)%nat -> nth_error df j = Some r' -> strftime_ym (Fecha r') <> m.
Proof.
  revert k; induction df as [|r df IH]; intros k H; cbn [find_index] in H; [discriminate|].
  destruct (String.eqb_spec (strftime_ym (Fecha r)) m) as [E|E].
  - injection H as <-. exists r. split; [reflexivity|]. split; [exact E|].
    intros j r' Hj. lia.
  - destruct (find_index m df) as [k'|] eqn:Hk; cbn [option_map] in H; [|discriminate].
    injection H as <-. destruct (IH k' eq_refl) as (r0 & Hn & Hm & Hmin).
    exists r0. split; [exact Hn|]. split; [exact Hm|].
    intros [|j] r' Hj Hr'; cbn [nth_error] in Hr'.
    + injection Hr' as <-. exact E.
    + apply (Hmin j r'); [lia | exact Hr'].
Qed.

Lemma find_index_in (m : string) (df : list row) :
  In m (months df) -> exists k, find_index m df = Some k.
Proof.
  induction df as [|r df IH]; cbn [months map In find_index]; [tauto|].
  intros H. destruct (String.eqb_spec (strftime_ym (Fecha r)) m) as [E|E].
  - exists 0%nat. reflexivity.
  - destruct H as [H|H]; [contradiction|].
    destruct (IH H) as [k Hk]. unfold months in Hk. rewrite Hk. exists (S k). reflexivity.
Qed.

Lemma zip_rows_of (rows : list row) :
  Dash.zip_rows (map Fecha rows) (map NO2 rows) (map T21 rows) = rows.
Proof.
  induction rows as [|[d n t] rows IH]; simpl; [reflexivity|]. rewrite IH. reflexivity.
Qed.

End DataFacts.

(** ** The script's monad and the metric panel *)

Module PanelFacts.

Import DataFacts Dash.

Local Open Scope string_scope.

Lemma bind_inr {A B : Type} (m : App A) (k : A -> App B) h t1 h1 a :
  m h = (t1, h1, inr a) ->
  bind m k h = (let '(t2, h2, r) := k a h1 in ((t1 ++ t2)%list, h2, r)).
Proof. intros H. unfold bind. rewrite H. reflexivity. Qed.

Lemma bind_inl {A B : Type} (m : App A) (k : A -> App B) h t1 h1 e :
  m h = (t1, h1, inl e) -> bind m k h = (t1, h1, inl e).
Proof. intros H. unfold bind. rewrite H. reflexivity. Qed.

Lemma rows_of_frame_of_rows (rows : list row) :
  rows_of_frame (frame_of_rows rows) = Some rows.
Proof. unfold rows_of_frame, frame_of_rows. simpl. rewrite zip_rows_of. reflexivity. Qed.

Lemma read_rows_ok (p : nat) (h : heap) (rows : list row) :
  nth_error h p = Some (OFrame (frame_of_rows rows)) ->
  read_rows p h = ([], h, inr rows).
Proof.
  intros H. unfold read_rows, get_frame, deref, bind. rewrite H. cbn [ret].
  rewrite rows_of_frame_of_rows. reflexivity.
Qed.

Lemma nth_error_before {A : Type} (l : list A) (k j : nat) (x : A) :
  nth_error l k = Some x -> (j < k)%nat -> exists y, nth_error l j = Some y.
Proof.
  intros Hk Hj. assert (Hlt : (k < List.length l)%nat)
    by (apply nth_error_Some; rewrite Hk; discriminate).
  destruct (nth_error l j) as [y|] eqn:E; [exists y; reflexivity|].
  apply nth_error_None in E. lia.
Qed.

Lemma nth_error_length_gt {A : Type} (l : list A) (k : nat) (x : A) :
  nth_error l k = Some x -> (k < List.length l)%nat.
Proof. intros H. apply nth_error_Some. rewrite H. discriminate. Qed.

(** The selected month always has a row: the first one whose date
    formats to it. *)
Lemma selected_month_row (rows : list row) (choice : option nat) (sel : string) :
  nth_error (available_months rows) (choice_index (available_months rows) choice) = Some sel ->
  exists k r, find_index sel rows = Some k /\ nth_error rows k = Some r /\
    strftime_ym (Fecha r) = sel /\
    (forall j r', (j < k)%nat -> nth_error rows j = Some r' -> strftime_ym (Fecha r') <> sel).
Proof.
  intros Hc. apply nth_error_In in Hc. apply in_available_months in Hc.
  destruct (find_index_in _ _ Hc) as [k Hk].
  destruct (find_index_some _ _ _ Hk) as (r & Hr & Hm & Hmin).
  exists k, r. auto.
Qed.

(** Runs [controls] through the selectbox and the two value metrics. *)
Ltac run_controls_head Hh Hc Hs Hk :=
  unfold controls, bind at 1; rewrite (read_rows_ok _ _ _ Hh); cbv beta iota;
  unfold selectbox; cbn [bind emit ret raise]; rewrite Hc;
  cbn [bind emit ret raise]; rewrite Hs; cbn [bind emit ret raise]; rewrite Hk.

(** C5.  For every month the selector offers (the user's choice or the
    default), the metric panel shows the NO2 and T21 values of the first row
    whose date formats to that month, each passed to its format spec
    unchanged. *)
Theorem metric_panel_shows_first_row (p : nat) (h : heap) (rows : list row)
    (choice : option nat) (sel : string) :
  nth_error h p = Some (OFrame (frame_of_rows rows)) ->
  nth_error (available_months rows) (choice_index (available_months rows) choice) = Some sel ->
  exists k r rest,
    find_index sel rows = Some k /\ nth_error rows k = Some r /\
    strftime_ym (Fecha r) = sel /\
    (forall j r', (j < k)%nat -> nth_error rows j = Some r' -> strftime_ym (Fecha r') <> sel) /\
    controls p choice h =
      (Selectbox "Selecciona el mes:" (available_months rows)
       :: Metric "NO2 (Dioxido de Nitrogeno)" (DNum ".2e mol/m2" (NO2 r)) None
       :: Metric "T21 (Temperatura de Brillo)" (DNum ".1f K" (T21 r)) None :: rest,
       h, inr sel).
Proof.
  intros Hh Hc.
  destruct (selected_month_row rows choice sel Hc) as (k & r & Hk & Hr & Hm & Hmin).
  assert (Hs : selected_data rows sel = Some r) by (unfold selected_data; rewrite Hk; exact Hr).
  exists k, r.
  enough (E : exists rest, controls p choice h =
      (Selectbox "Selecciona el mes:" (available_months rows)
       :: Metric "NO2 (Dioxido de Nitrogeno)" (DNum ".2e mol/m2" (NO2 r)) None
       :: Metric "T21 (Temperatura de Brillo)" (DNum ".1f K" (T21 r)) None :: rest,
       h, inr sel)).
  { destruct E as [rest E]. exists rest. auto. }
  run_controls_head Hh Hc Hs Hk.
  destruct (1 <? List.length rows)%nat; [|eexists; reflexivity].
  destruct (0 <? k)%nat eqn:E0; [|eexists; reflexivity].
  apply Nat.ltb_lt in E0.
  destruct (nth_error_before rows k (k - 1) r Hr ltac:(lia)) as [prev Hprev].
  rewrite Hprev. eexists; reflexivity.
Qed.

(** Cases of the displayed percentage change: the quotient when the previous
    value is non-zero, and float64's [+inf], [-inf] or [nan] when it is zero. *)
Lemma show_pct_change_cases (cur prev : Q) :
  (~ (prev == 0)%Q -> show_pct (pct_change cur prev) = DNum "+.1f%" ((cur - prev) / prev * 100)%Q) /\
  ((prev == 0)%Q -> (0 < cur)%Q -> show_pct (pct_change cur prev) = DText "+inf%") /\
  ((prev == 0)%Q -> (cur < 0)%Q -> show_pct (pct_change cur prev) = DText "-inf%") /\
  ((prev == 0)%Q -> (cur == 0)%Q -> show_pct (pct_change cur prev) = DText "+nan%").
Proof.
  unfold pct_change.
  destruct (Qeq_bool prev 0) eqn:E0.
  - apply Qeq_bool_iff in E0.
    assert (Hd : (cur - prev == cur)%Q) by (rewrite E0; ring).
    split; [intros Hn; contradiction|].
    destruct (Qeq_bool (cur - prev) 0) eqn:E1.
    + apply Qeq_bool_iff in E1. rewrite Hd in E1.
      repeat split; intros _ H; try reflexivity; rewrite E1 in H; discriminate.
    + assert (Hn : ~ (cur == 0)%Q).
      { intros Hc. rewrite <- Hd in Hc. apply Qeq_bool_iff in Hc. congruence. }
      destruct (Qle_bool (cur - prev) 0) eqn:E2.
      * apply Qle_bool_iff in E2. rewrite Hd in E2.
        repeat split; intros _ H; try reflexivity.
        -- exfalso. apply (Qlt_not_le _ _ H E2).
        -- contradiction.
      * assert (E3 : ~ (cur <= 0)%Q).
        { intros Hc. rewrite <- Hd in Hc. apply Qle_bool_iff in Hc. congruence. }
        repeat split; intros _ H; try reflexivity.
        -- exfalso. apply E3. apply Qlt_le_weak. exact H.
        -- contradiction.
  - split; [reflexivity|].
    repeat split; intros H; apply Qeq_bool_iff in H; congruence.
Qed.

(** C3.  When the selected month's row is not the first row, the panel shows
    [Delta NO2 = (NO2 - previous NO2) / previous NO2 * 100] for the row just
    before it when the previous NO2 is non-zero, and float64's [+inf%],
    [-inf%] or [+nan%] when it is zero (with [Delta T21] as a difference);
    when it is the first row, or the table has at most one row, no delta
    metric is shown. *)
Theorem delta_no2_month_over_month (p : nat) (h : heap) (rows : list row)
    (choice : option nat) (sel : string) (k : nat) (r : row) :
  nth_error h p = Some (OFrame (frame_of_rows rows)) ->
  nth_error (available_months rows) (choice_index (available_months rows) choice) = Some sel ->
  find_index sel rows = Some k -> nth_error rows k = Some r ->
  ((0 < k)%nat ->
   exists prev d, nth_error rows (k - 1) = Some prev /\
     (~ (NO2 prev == 0)%Q -> d = DNum "+.1f%" ((NO2 r - NO2 prev) / NO2 prev * 100)%Q) /\
     ((NO2 prev == 0)%Q -> (0 < NO2 r)%Q -> d = DText "+inf%") /\
     ((NO2 prev == 0)%Q -> (NO2 r < 0)%Q -> d = DText "-inf%") /\
     ((NO2 prev == 0)%Q -> (NO2 r == 0)%Q -> d = DText "+nan%") /\
     controls p choice h =
       ([Selectbox "Selecciona el mes:" (available_months rows);
         Metric "NO2 (Dioxido de Nitrogeno)" (DNum ".2e mol/m2" (NO2 r)) None;
         Metric "T21 (Temperatura de Brillo)" (DNum ".1f K" (T21 r)) None;
         Metric "Delta NO2" d (Some d);
         Metric "Delta T21" (DNum "+.1f K" (T21 r - T21 prev)%Q)
                (Some (DNum "+.1f K" (T21 r - T21 prev)%Q));
         Info "Usa las pestanas superiores para explorar diferentes visualizaciones"],
        h, inr sel)) /\
  ((k = 0 \/ List.length rows <= 1)%nat ->
   controls p choice h =
     ([Selectbox "Selecciona el mes:" (available_months rows);
       Metric "NO2 (Dioxido de Nitrogeno)" (DNum ".2e mol/m2" (NO2 r)) None;
       Metric "T21 (Temperatura de Brillo)" (DNum ".1f K" (T21 r)) None;
       Info "Usa las pestanas superiores para explorar diferentes visualizaciones"],
      h, inr sel)).
Proof.
  intros Hh Hc Hk Hr.
  assert (Hs : selected_data rows sel = Some r) by (unfold selected_data; rewrite Hk; exact Hr).
  pose proof (nth_error_length_gt _ _ _ Hr) as Hlen.
  split.
  - intros Hpos.
    destruct (nth_error_before rows k (k - 1) r Hr ltac:(lia)) as [prev Hprev].
    exists prev, (show_pct (pct_change (NO2 r) (NO2 prev))).
    destruct (show_pct_change_cases (NO2 r) (NO2 prev)) as (C1 & C2 & C3 & C4).
    split; [exact Hprev|]. split; [exact C1|]. split; [exact C2|].
    split; [exact C3|]. split; [exact C4|].
    run_controls_head Hh Hc Hs Hk.
    replace (1 <? List.length rows)%nat with true by (symmetry; apply Nat.ltb_lt; lia).
    replace (0 <? k)%nat with true by (symmetry; apply Nat.ltb_lt; lia).
    rewrite Hprev. reflexivity.
  - intros Hcase.
    run_controls_head Hh Hc Hs Hk.
    destruct Hcase as [-> | Hle].
    + destruct (1 <? List.length rows)%nat; reflexivity.
    + replace (1 <? List.length rows)%nat with false by (symmetry; apply Nat.ltb_ge; lia).
      reflexivity.
Qed.

End PanelFacts.

Module PanelChecks.

Import Dash PanelFacts Samples.
Local Open Scope string_scope.

Lemma metric_panel_shows_first_row_witness :
  exists k r rest,
    find_index "2024-02" rows_2024 = Some k /\ nth_error rows_2024 k = Some r /\
    strftime_ym (Fecha r) = "2024-02" /\
    (forall j r', (j < k)%nat -> nth_error rows_2024 j = Some r' ->
                  strftime_ym (Fecha r') <> "2024-02") /\
    controls 0 (Some 1%nat) heap_2024 =
      (Selectbox "Selecciona el mes:" (available_months rows_2024)
       :: Metric "NO2 (Dioxido de Nitrogeno)" (DNum ".2e mol/m2" (NO2 r)) None
       :: Metric "T21 (Temperatura de Brillo)" (DNum ".1f K" (T21 r)) None :: rest,
       heap_2024, inr "2024-02").
Proof.
  apply (metric_panel_shows_first_row 0 heap_2024 rows_2024 (Some 1%nat) "2024-02");
    vm_compute; reflexivity.
Defined.

Lemma delta_no2_month_over_month_witness :
  exists prev d, nth_error rows_2024 0 = Some prev /\
    d = DNum "+.1f%" ((NO2 row_feb - NO2 prev) / NO2 prev * 100)%Q /\
    controls 0 (Some 1%nat) heap_2024 =
      ([Selectbox "Selecciona el mes:" (available_months rows_2024);
        Metric "NO2 (Dioxido de Nitrogeno)" (DNum ".2e mol/m2" (NO2 row_feb)) None;
        Metric "T21 (Temperatura de Brillo)" (DNum ".1f K" (T21 row_feb)) None;
        Metric "Delta NO2" d (Some d);
        Metric "Delta T21" (DNum "+.1f K" (T21 row_feb - T21 prev)%Q)
               (Some (DNum "+.1f K" (T21 row_feb - T21 prev)%Q));
        Info "Usa las pestanas superiores para explorar diferentes visualizaciones"],
       heap_2024, inr "2024-02").
Proof.
  destruct (delta_no2_month_over_month 0 heap_2024 rows_2024 (Some 1%nat) "2024-02" 1 row_feb
              eq_refl ltac:(vm_compute; reflexivity) ltac:(vm_compute; reflexivity) eq_refl)
    as [H _].
  destruct (H ltac:(lia)) as (prev & d & Hp & H1 & _ & _ & _ & Hc).
  exists prev, d. split; [exact Hp|]. split; [|exact Hc].
  apply H1. cbn in Hp. injection Hp as <-. intros Hq. vm_compute in Hq. discriminate.
Defined.

End PanelChecks.

(** ** The page as a whole *)

Module PageFacts.

Import Dash HeapFrame PanelFacts.

Local Open Scope string_scope.

(** *** The blend mode *)

(** C8.  The blend mode chosen in the "Mezcla" selectbox is never read: two
    overlays that differ only in it give the same result, and two whole runs
    of the page that differ only in it are identical (page, heap and
    outcome). *)
Theorem blend_mode_unused resize (b1 b2 : Overlay.blend_mode) o1 o2 (img_no2 img_t21 : image) :
  Overlay.overlay resize b1 o1 o2 img_no2 img_t21 =
  Overlay.overlay resize b2 o1 o2 img_no2 img_t21 /\
  (forall v fs w h,
     page resize v fs w h =
     page resize v fs
       (mkWidgets (w_theme w) (w_month w) (w_view w) (w_op_no2 w) (w_op_t21 w) b2 (w_layer w)) h).
Proof.
  split; [reflexivity|].
  intros [[df_v meta_v] err] fs [t mo vw op1 op2 b l] h. reflexivity.
Qed.

(** *** Missing data files *)

(** C4.  If the CSV or the metadata file is missing, [load_data] returns
    [(None, None, error_msg)] with a non-empty message; a run, whether it
    loads the data or finds that value in the cache, shows the page header,
    the error, the hint and the code snippet, and then stops: nothing of the
    dashboard is shown and no object is allocated. *)
Theorem missing_file_halts resize fs w :
  (fs_csv fs = None \/ fs_meta fs = None) ->
  load_data fs = (None, None, Some error_msg) /\ error_msg <> "" /\
  (forall cache, cache = None \/ cache = Some (load_data fs) ->
   run resize cache fs w =
     (([PageConfig "NO2 y T21 - Peninsula de Yucatan"; Radio "Tema:" ["Claro"; "Oscuro"];
        Markdown (css (w_theme w)); Error error_msg;
        Info "Asegurate de haber autenticado Earth Engine antes de ejecutar el script";
        Code "import ee; ee.Authenticate(); ee.Initialize(project='tu-proyecto')"], [],
       inl Stopped),
      Some (None, None, Some error_msg))).
Proof.
  intros H.
  assert (HL : load_data fs = (None, None, Some error_msg)).
  { unfold load_data. destruct H as [H | H]; rewrite H; [reflexivity|].
    destruct (fs_csv fs); reflexivity. }
  split; [exact HL|]. split; [unfold error_msg; discriminate|].
  intros cache [-> | ->]; unfold run, cached_load_data; rewrite HL; reflexivity.
Qed.

(** *** The loaded data is never written *)

Lemma extends_ret {A : Type} (a : A) : extends (ret a).
Proof. intros h. exists []. symmetry. apply app_nil_r. Qed.

Lemma extends_emit e : extends (emit e).
Proof. intros h. exists []. symmetry. apply app_nil_r. Qed.

Lemma extends_stop {A : Type} : extends (@stop A).
Proof. intros h. exists []. symmetry. apply app_nil_r. Qed.

Lemma extends_raise {A : Type} s : extends (@raise A s).
Proof. intros h. exists []. symmetry. apply app_nil_r. Qed.

Lemma extends_alloc o : extends (alloc o).
Proof. intros h. exists [o]. reflexivity. Qed.

Lemma extends_deref p : extends (deref p).
Proof.
  intros h. exists []. unfold heap_after, deref.
  destruct (nth_error h p); simpl; symmetry; apply app_nil_r.
Qed.

Lemma extends_bind {A B : Type} (m : App A) (k : A -> App B) :
  extends m -> (forall a, extends (k a)) -> extends (bind m k).
Proof.
  intros Hm Hk h. unfold heap_after, bind.
  destruct (Hm h) as [s1 E1]. unfold heap_after in E1.
  destruct (m h) as [[t1 h1] [e|a]]; simpl in E1; subst h1.
  - exists s1. reflexivity.
  - destruct (Hk a (h ++ s1)%list) as [s2 E2]. unfold heap_after in E2.
    destruct (k a (h ++ s1)%list) as [[t2 h2] r]. simpl in *. subst h2.
    exists (s1 ++ s2)%list. symmetry. apply app_assoc.
Qed.

Create HintDb extends_db.
#[local] Hint Resolve extends_ret extends_emit extends_stop extends_raise extends_alloc
  extends_deref : extends_db.

(** Break a fragment into its primitive steps, trying the known fragments
    first. *)
Ltac extends_tac :=
  repeat first
    [ solve [eauto with extends_db]
    | apply extends_bind; intros
    | match goal with |- extends (match ?x with _ => _ end) => destruct x end
    | match goal with |- extends (if ?x then _ else _) => destruct x end ].

Lemma extends_get_frame p : extends (get_frame p).
Proof. unfold get_frame. extends_tac. Qed.
#[local] Hint Resolve extends_get_frame : extends_db.

Lemma extends_get_column p n : extends (get_column p n).
Proof. unfold get_column. extends_tac. Qed.

Lemma extends_read_rows p : extends (read_rows p).
Proof. unfold read_rows. extends_tac. Qed.
#[local] Hint Resolve extends_get_column extends_read_rows : extends_db.

Lemma extends_selectbox l o c : extends (selectbox l o c).
Proof. unfold selectbox. extends_tac. Qed.
#[local] Hint Resolve extends_selectbox : extends_db.

Lemma extends_controls p c : extends (controls p c).
Proof. unfold controls. extends_tac. Qed.

Lemma extends_show_or_error fs n m : extends (show_or_error fs n m).
Proof. unfold show_or_error. extends_tac. Qed.
#[local] Hint Resolve extends_controls extends_show_or_error : extends_db.

Lemma extends_tab1 resize fs w m : extends (tab1 resize fs w m).
Proof. unfold tab1, overlay_panel. extends_tac. Qed.

Lemma extends_idxmax l : extends (idxmax l).
Proof. unfold idxmax. extends_tac. Qed.

Lemma extends_keeps {A : Type} n (m : App A) : extends m -> keeps n m.
Proof.
  intros Hm h Hn. destruct (Hm h) as [s ->].
  rewrite firstn_app, length_app. replace (n - List.length h)%nat with 0%nat by lia.
  rewrite firstn_O, app_nil_r. split; [reflexivity | lia].
Qed.

Lemma keeps_bind {A B : Type} n (m : App A) (k : A -> App B) :
  keeps n m -> (forall a, keeps n (k a)) -> keeps n (bind m k).
Proof.
  intros Hm Hk h Hn. unfold heap_after, bind.
  destruct (Hm h Hn) as [E1 L1]. unfold heap_after in E1, L1.
  destruct (m h) as [[t1 h1] [e|a]]; simpl in *; [auto|].
  destruct (Hk a h1 L1) as [E2 L2]. unfold heap_after in E2, L2.
  destruct (k a h1) as [[t2 h2] r]. simpl in *. split; [congruence | exact L2].
Qed.

Lemma firstn_replace_nth {A : Type} (l : list A) n p x :
  (n <= p)%nat -> firstn n (replace_nth l p x) = firstn n l.
Proof.
  revert n p. induction l as [|y l IH]; intros n p Hle; [reflexivity|].
  destruct n as [|n]; [reflexivity|]. destruct p as [|p]; [lia|].
  simpl. f_equal. apply IH. lia.
Qed.

Lemma length_replace_nth {A : Type} (l : list A) p x :
  List.length (replace_nth l p x) = List.length l.
Proof.
  revert p. induction l as [|y l IH]; intros p; [reflexivity|].
  destruct p; simpl; [reflexivity | now rewrite IH].
Qed.

Lemma keeps_store n p o : (n <= p)%nat -> keeps n (store p o).
Proof.
  intros Hp h Hn. unfold heap_after, store. simpl.
  rewrite firstn_replace_nth, length_replace_nth by exact Hp.
  split; [reflexivity | exact Hn].
Qed.

Lemma keeps_set_column n p name c : (n <= p)%nat -> keeps n (set_column p name c).
Proof.
  intros Hp. unfold set_column. apply keeps_bind.
  - apply extends_keeps, extends_get_frame.
  - intros f. apply keeps_store, Hp.
Qed.

(** [df.copy()] either fails without touching the heap or puts the copy
    right after the existing objects. *)
Lemma copy_frame_spec p h :
  (exists e, copy_frame p h = ([], h, inl e)) \/
  (exists f, copy_frame p h = ([], (h ++ [OFrame f])%list, inr (List.length h))).
Proof.
  unfold copy_frame, get_frame, deref, bind.
  destruct (nth_error h p) as [[f|m]|]; cbn; eauto.
Qed.

Lemma extends_bind_copy {B : Type} p (k : nat -> App B) :
  (forall h : heap, keeps (List.length h) (k (List.length h))) ->
  extends (bind (copy_frame p) k).
Proof.
  intros Hk h. unfold heap_after, bind.
  destruct (copy_frame_spec p h) as [[e E] | [f E]]; rewrite E; simpl.
  - exists []. symmetry. apply app_nil_r.
  - destruct (Hk h (h ++ [OFrame f])%list) as [E2 L2];
      [rewrite length_app; simpl; lia|].
    unfold heap_after in E2, L2.
    destruct (k (List.length h) (h ++ [OFrame f])%list) as [[t2 h2] r]. simpl in *.
    rewrite firstn_app, Nat.sub_diag, firstn_O, app_nil_r, firstn_all in E2.
    exists (skipn (List.length h) h2). rewrite <- E2 at 1. symmetry. apply firstn_skipn.
Qed.

Ltac keeps_tac :=
  repeat first
    [ apply keeps_set_column; lia
    | apply keeps_store; lia
    | apply keeps_bind; intros
    | apply extends_keeps; solve [eauto with extends_db]
    | match goal with |- keeps _ (match ?x with _ => _ end) => destruct x end ].

(** The data table only writes to its own copy. *)
Lemma extends_table_view p : extends (table_view p).
Proof. unfold table_view. apply extends_bind_copy. intros h. keeps_tac. Qed.
#[local] Hint Resolve extends_table_view extends_idxmax extends_tab1 : extends_db.

Lemma extends_tab2 p : extends (tab2 p).
Proof. unfold tab2. extends_tac. Qed.

Lemma extends_tab3 p : extends (tab3 p).
Proof. unfold tab3. extends_tac. Qed.

Lemma extends_tab4_footer : extends tab4_footer.
Proof. unfold tab4_footer. extends_tac. Qed.
#[local] Hint Resolve extends_tab2 extends_tab3 extends_tab4_footer : extends_db.

Lemma extends_dashboard resize fs w p : extends (dashboard resize fs w p).
Proof. unfold dashboard. extends_tac. Qed.

(** C7.  [load_data] runs once: once its value is cached, every later run
    gets that value whatever the files are then.  The data table formats a
    copy and only adds objects to the heap, and a run that loads the CSV and
    the metadata ends with the data frame and the metadata object it was
    given, at the same places and unchanged (in particular the [Fecha],
    [NO2] and [T21] columns), however the run ends. *)
Theorem loaded_data_not_mutated resize fs w rows m :
  load_data fs = (Some rows, Some m, None) ->
  (forall fs', cached_load_data (Some (load_data fs)) fs' =
               (load_data fs, Some (load_data fs))) /\
  (forall p h, exists s, heap_after (table_view p) h = (h ++ s)%list) /\
  (forall cache, cache = None \/ cache = Some (load_data fs) ->
   exists t r s, run resize cache fs w =
     ((t, OFrame (frame_of_rows rows) :: OMeta m :: s, r), Some (load_data fs))).
Proof.
  intros HL. split; [reflexivity|]. split; [apply extends_table_view|].
  intros cache Hc.
  assert (E : exists t r s, page resize (Some rows, Some m, None) fs w [] =
                 (t, OFrame (frame_of_rows rows) :: OMeta m :: s, r)).
  { destruct (extends_dashboard resize fs w 0 [OFrame (frame_of_rows rows); OMeta m])
      as [s Es].
    unfold heap_after in Es.
    destruct (dashboard resize fs w 0 [OFrame (frame_of_rows rows); OMeta m])
      as [[t h'] r] eqn:ED.
    simpl in Es. subst h'.
    unfold page. cbn -[dashboard]. rewrite ED. eexists _, r, s. reflexivity. }
  destruct E as (t & r & s & E).
  exists t, r, s.
  destruct Hc as [-> | ->]; unfold run, cached_load_data; rewrite HL, E; reflexivity.
Qed.

(** *** A missing raster *)

Lemma bind_emit {B : Type} e (k : unit -> App B) h :
  bind (emit e) k h = (let '(t2, h2, r) := k tt h in (e :: t2, h2, r)).
Proof. reflexivity. Qed.

(** The map tab always ends normally and leaves the heap alone. *)
Lemma tab1_total resize (Hresize : forall i s, size (resize i s) = s) fs w m h :
  exists t, tab1 resize fs w m h = (t, h, inr tt).
Proof.
  unfold tab1, overlay_panel, show_or_error.
  destruct (fs_images_dir fs); [|eexists; reflexivity].
  destruct (w_view w).
  - destruct (fs_image fs (no2_file m)), (fs_image fs (t21_file m)); eexists; reflexivity.
  - destruct (fs_image fs (no2_file m)) as [i1|]; [|eexists; reflexivity].
    destruct (fs_image fs (t21_file m)) as [i2|]; [|eexists; reflexivity].
    destruct (OverlayFacts.overlay_some resize Hresize (w_blend w) (w_op_no2 w) (w_op_t21 w)
                i1 i2) as [out Eo].
    rewrite Eo. eexists; reflexivity.
  - destruct (w_layer w).
    + destruct (fs_image fs (no2_file m)); eexists; reflexivity.
    + destruct (fs_image fs (t21_file m)); eexists; reflexivity.
Qed.

(** C9.  With [monthly_images] present and one of the month's rasters
    missing, the map tab ends normally.  Side by side, each panel shows its
    own raster or its own error naming the missing file, followed by the
    legends and the tips.  In the overlay view a single error, "Una o ambas
    imagenes no estan disponibles", takes the place of the composite and
    the raster that is present is not shown.  In every case the dashboard
    goes on: after the map tab, tabs 2 to 4 produce exactly what they
    produce on their own. *)
Theorem missing_raster_does_not_halt resize (Hresize : forall i s, size (resize i s) = s)
    fs w m :
  fs_images_dir fs = true ->
  (fs_image fs (no2_file m) = None \/ fs_image fs (t21_file m) = None) ->
  (forall h, w_view w = LadoALado ->
     tab1 resize fs w m h =
       ([Subheader ("Visualizacion Espacial - " ++ m);
         Radio "Modo de visualizacion:"
           ["Comparacion lado a lado"; "Superposicion con control"; "Vista individual"];
         Markdown "---";
         Markdown "#### NO2 - Dioxido de Nitrogeno";
         match fs_image fs (no2_file m) with
         | Some i => ShowImage i | None => Error ("Imagen no disponible: " ++ no2_file m) end;
         Markdown "#### T21 - Temperatura de Brillo (Incendios)";
         match fs_image fs (t21_file m) with
         | Some i => ShowImage i | None => Error ("Imagen no disponible: " ++ t21_file m) end;
         Expander "Ver Leyendas de Colores"; Markdown legend_no2; Markdown legend_t21;
         Info tips], h, inr tt)) /\
  (forall h, w_view w = Superposicion ->
     tab1 resize fs w m h =
       ([Subheader ("Visualizacion Espacial - " ++ m);
         Radio "Modo de visualizacion:"
           ["Comparacion lado a lado"; "Superposicion con control"; "Vista individual"];
         Markdown "---";
         Markdown "#### Mapa Superpuesto con Control de Capas";
         Slider "Opacidad NO2"; Slider "Opacidad T21";
         Selectbox "Mezcla" ["Normal"; "Multiplicar"; "Pantalla"];
         Error "Una o ambas imagenes no estan disponibles";
         Expander "Ver Leyendas de Colores"; Markdown legend_no2; Markdown legend_t21;
         Info tips], h, inr tt)) /\
  (forall p h, dashboard resize fs w p h =
     match (emit (Markdown "NO2 y T21 (Incendios) en la Peninsula de Yucatan");;
            emit (Markdown "Analisis de datos satelitales mensuales - 2024");;
            controls p (w_month w)) h with
     | (t0, h0, inl e) => (t0, h0, inl e)
     | (t0, h0, inr sel) =>
         match (tab2 p;; tab3 p;; tab4_footer) h0 with
         | (t2, h2, r2) =>
             ((t0 ++ Tabs tab_names :: fst (fst (tab1 resize fs w sel h0)) ++ t2)%list, h2, r2)
         end
     end).
Proof.
  intros Hdir Hmiss. split; [|split].
  - intros h Hv. unfold tab1, show_or_error. rewrite Hdir, Hv.
    destruct (fs_image fs (no2_file m)), (fs_image fs (t21_file m)); reflexivity.
  - intros h Hv. unfold tab1, overlay_panel. rewrite Hdir, Hv.
    destruct Hmiss as [E | E]; rewrite E; [reflexivity|].
    destruct (fs_image fs (no2_file m)); reflexivity.
  - intros p h. unfold dashboard. rewrite !bind_emit.
    destruct (controls p (w_month w) h) as [[t0 h0] [e|sel]] eqn:Ec.
    + rewrite (bind_inl _ _ _ _ _ _ Ec). reflexivity.
    + rewrite (bind_inr _ _ _ _ _ _ Ec), bind_emit.
      destruct (tab1_total resize Hresize fs w sel h0) as [t1 E1].
      rewrite (bind_inr _ _ _ _ _ _ E1), E1. cbn [fst].
      destruct ((tab2 p;; tab3 p;; tab4_footer) h0) as [[t2 h2] r2]. reflexivity.
Qed.

End PageFacts.

Module PageChecks.

Import Dash HeapFrame PageFacts Samples.

Local Open Scope string_scope.

Lemma missing_file_halts_witness :
  load_data files_no_csv = (None, None, Some error_msg) /\ error_msg <> "" /\
  (forall cache, cache = None \/ cache = Some (load_data files_no_csv) ->
   run resize_nearest cache files_no_csv widgets_side =
     (([PageConfig "NO2 y T21 - Peninsula de Yucatan"; Radio "Tema:" ["Claro"; "Oscuro"];
        Markdown (css (w_theme widgets_side)); Error error_msg;
        Info "Asegurate de haber autenticado Earth Engine antes de ejecutar el script";
        Code "import ee; ee.Authenticate(); ee.Initialize(project='tu-proyecto')"], [],
       inl Stopped),
      Some (None, None, Some error_msg))).
Proof.
  apply (missing_file_halts resize_nearest files_no_csv widgets_side).
  left. reflexivity.
Defined.

Lemma loaded_data_not_mutated_witness :
  (forall fs', cached_load_data (Some (load_data files_feb_no_t21)) fs' =
               (load_data files_feb_no_t21, Some (load_data files_feb_no_t21))) /\
  (forall p h, exists s, heap_after (table_view p) h = (h ++ s)%list) /\
  (forall cache, cache = None \/ cache = Some (load_data files_feb_no_t21) ->
   exists t r s, run resize_nearest cache files_feb_no_t21 widgets_overlay =
     ((t, OFrame (frame_of_rows rows_2024) :: OMeta meta_2024 :: s, r),
      Some (load_data files_feb_no_t21))).
Proof.
  apply (loaded_data_not_mutated resize_nearest files_feb_no_t21 widgets_overlay
           rows_2024 meta_2024).
  reflexivity.
Defined.

Lemma missing_raster_does_not_halt_witness :
  fs_image files_feb_no_t21 (t21_file "2024-02") = None /\
  forall h,
    tab1 resize_nearest files_feb_no_t21 widgets_side "2024-02" h =
      ([Subheader ("Visualizacion Espacial - " ++ "2024-02");
        Radio "Modo de visualizacion:"
          ["Comparacion lado a lado"; "Superposicion con control"; "Vista individual"];
        Markdown "---";
        Markdown "#### NO2 - Dioxido de Nitrogeno";
        match fs_image files_feb_no_t21 (no2_file "2024-02") with
        | Some i => ShowImage i
        | None => Error ("Imagen no disponible: " ++ no2_file "2024-02") end;
        Markdown "#### T21 - Temperatura de Brillo (Incendios)";
        match fs_image files_feb_no_t21 (t21_file "2024-02") with
        | Some i => ShowImage i
        | None => Error ("Imagen no disponible: " ++ t21_file "2024-02") end;
        Expander "Ver Leyendas de Colores"; Markdown legend_no2; Markdown legend_t21;
        Info tips], h, inr tt).
Proof.
  split; [reflexivity|].
  intros h.
  destruct (missing_raster_does_not_halt resize_nearest ltac:(intros i [wd ht]; reflexivity)
              files_feb_no_t21 widgets_side "2024-02" eq_refl (or_intror eq_refl))
    as [H _].
  exact (H h eq_refl).
Defined.

(** In the overlay view the February NO2 raster is there and the T21 one is
    not: the map tab shows the generic error and no image at all, and no
    error names the missing file. *)
Lemma overlay_missing_raster_hides_other :
  fs_image files_feb_no_t21 (no2_file "2024-02") = Some img_c /\
  fs_image files_feb_no_t21 (t21_file "2024-02") = None /\
  tab1 resize_nearest files_feb_no_t21 widgets_overlay "2024-02" [] =
    ([Subheader "Visualizacion Espacial - 2024-02";
      Radio "Modo de visualizacion:"
        ["Comparacion lado a lado"; "Superposicion con control"; "Vista individual"];
      Markdown "---";
      Markdown "#### Mapa Superpuesto con Control de Capas";
      Slider "Opacidad NO2"; Slider "Opacidad T21";
      Selectbox "Mezcla" ["Normal"; "Multiplicar"; "Pantalla"];
      Error "Una o ambas imagenes no estan disponibles";
      Expander "Ver Leyendas de Colores"; Markdown legend_no2; Markdown legend_t21;
      Info tips], [], inr tt) /\
  ~ In (ShowImage img_c) (fst (fst (tab1 resize_nearest files_feb_no_t21 widgets_overlay "2024-02" []))) /\
  ~ In (Error ("Imagen no disponible: " ++ t21_file "2024-02"))
       (fst (fst (tab1 resize_nearest files_feb_no_t21 widgets_overlay "2024-02" []))).
Proof.
  split; [reflexivity|]. split; [reflexivity|]. split; [reflexivity|].
  split; vm_compute; intros H; repeat (destruct H as [H|H]; [discriminate H|]); exact H.
Qed.

End PageChecks.

(** ** The correlation of a constant NO2 series *)

Module CorrChecks.

Import Corr Dash Samples.

Local Open Scope R_scope.

Lemma cov_const3 (a : R) : cov [a; a; a] [a; a; a] = 0.
Proof.
  unfold cov, rmean. cbn [rsum zip_with List.length].
  replace ((a + (a + (a + 0))) / INR 3) with a by (cbn; field).
  replace (a - a) with 0 by ring. cbn. field.
Qed.

(** C2.  With a NO2 column whose three values are all [2^-13] (exact in
    float64, so that the mean and the deviations are exact),
    [df['NO2'].corr(df['T21'])] is NaN: [np.corrcoef] divides the zero
    covariance by the zero standard deviation.  A NaN is not in [[-1, 1]],
    and since [abs(nan) < 0.3] and [abs(nan) < 0.7] are both false the page
    labels it "Fuerte" (lines 603-617).  The run reaches the correlation
    tab without error: both [np.polyfit] calls succeed on this input. *)
Theorem constant_no2_labelled_strong :
  correlation rows_const_no2 = None /\
  interpretation (correlation rows_const_no2) = Fuerte /\
  exists t s, run resize_nearest None files_const_no2 widgets_side =
                ((t, s, inr tt), Some (load_data files_const_no2)) /\
              In (CorrBox (map NO2 rows_const_no2) (map T21 rows_const_no2)) t.
Proof.
  assert (Hc : correlation rows_const_no2 = None).
  { assert (Hx : map (fun r => Q2R (NO2 r)) rows_const_no2 =
                 [Q2R (1 # 8192); Q2R (1 # 8192); Q2R (1 # 8192)]) by reflexivity.
    unfold correlation, corrcoef. rewrite Hx. cbn [List.length Nat.leb].
    destruct (Req_EM_T _ 0) as [_ | H]; [reflexivity|].
    exfalso. apply H, cov_const3. }
  split; [exact Hc|]. split; [rewrite Hc; reflexivity|].
  set (X := run resize_nearest None files_const_no2 widgets_side).
  exists (fst (fst (fst X))), (snd (fst (fst X))). split.
  - vm_compute. reflexivity.
  - vm_compute. repeat (first [left; reflexivity | right]).
Qed.

End CorrChecks.

(** * Further properties of the script *)

From Stdlib Require Import Sorting.Sorted Permutation.

(** ** The overlay view: opacity, well-formedness, hidden layers *)

Module OverlayExtra.

Import PILFacts Overlay OverlayFacts.

Local Open Scope Z_scope.

Lemma composite_opaque_dst (d s : rgba) : pa d = 255 -> pa (composite_px d s) = 255.
Proof.
  intros Hd. unfold composite_px. destruct (pa s =? 0); [exact Hd|].
  cbv zeta. cbn [pa]. rewrite Hd.
  replace (pa s * 255 + 255 * (255 - pa s)) with 65025 by ring. reflexivity.
Qed.

Lemma rows_opaque_zip (rows src : list (list rgba)) :
  (forall row p, In row rows -> In p row -> pa p = 255) ->
  forall row p, In row (zip_with (zip_with composite_px) rows src) -> In p row -> pa p = 255.
Proof.
  intros H row p Hrow Hp.
  apply in_zip_with in Hrow as (r1 & r2 & Hr1 & _ & ->).
  apply in_zip_with in Hp as (d & s & Hd & _ & ->).
  apply composite_opaque_dst. exact (H r1 d Hr1 Hd).
Qed.

Lemma all_opaque_intro (i : image) :
  (forall row p, In row (im_px i) -> In p row -> pa p = 255) -> all_opaque i = true.
Proof.
  intros H. unfold all_opaque. apply forallb_forall. intros row Hrow.
  apply forallb_forall. intros p Hp. apply Z.eqb_eq. exact (H row p Hrow Hp).
Qed.

(** Every overlay is fully opaque, whatever the opacities and the rasters:
    the base of [Image.new("RGBA", size, (255, 255, 255, 255))] has alpha
    255, and [Image.alpha_composite] keeps alpha 255 over an opaque pixel
    (lines 316-328). *)
Theorem overlay_always_opaque resize blend o1 o2 (img_no2 img_t21 out : image) :
  overlay resize blend o1 o2 img_no2 img_t21 = Some out -> all_opaque out = true.
Proof.
  rewrite overlay_eq. unfold alpha_composite.
  destruct (size_eqb _ _); intros H; [|discriminate].
  injection H as <-. apply all_opaque_intro. cbn [im_px].
  apply rows_opaque_zip. apply rows_opaque_zip.
  intros row p Hrow Hp. apply in_repeat in Hrow. subst row.
  apply in_repeat in Hp. subst p. reflexivity.
Qed.

Lemma u8_range (z : Z) : byte_ok (u8 z) = true.
Proof.
  assert (E : u8 z = z mod 256).
  { unfold u8. change 255 with (Z.ones 8). rewrite Z.land_ones by lia. reflexivity. }
  unfold byte_ok. rewrite E. pose proof (Z.mod_pos_bound z 256 ltac:(lia)).
  apply andb_true_iff. split; apply Z.leb_le; lia.
Qed.

Lemma composite_px_ok (d s : rgba) : px_ok d = true -> px_ok (composite_px d s) = true.
Proof.
  intros Hd. unfold composite_px. destruct (pa s =? 0); [exact Hd|].
  cbv zeta. unfold px_ok. cbn [pr pg pb pa]. rewrite !u8_range. reflexivity.
Qed.

Lemma zip_rows_ok (rows src : list (list rgba)) (w h : nat) :
  List.length rows = h -> List.length src = h ->
  (forall r, In r rows -> List.length r = w /\ forall p, In p r -> px_ok p = true) ->
  (forall r, In r src -> List.length r = w) ->
  List.length (zip_with (zip_with composite_px) rows src) = h /\
  forall r, In r (zip_with (zip_with composite_px) rows src) ->
    List.length r = w /\ forall p, In p r -> px_ok p = true.
Proof.
  intros Hr Hs Hrows Hsrc. split.
  - rewrite length_zip_with. lia.
  - intros r Hin. apply in_zip_with in Hin as (r1 & r2 & H1 & H2 & ->).
    destruct (Hrows r1 H1) as [L1 P1]. pose proof (Hsrc r2 H2) as L2. split.
    + rewrite length_zip_with. lia.
    + intros p Hp. apply in_zip_with in Hp as (d & s & Hd & _ & ->).
      apply composite_px_ok, P1, Hd.
Qed.

Lemma img_ok_intro (i : image) :
  List.length (im_px i) = im_h i ->
  (forall row, In row (im_px i) ->
     List.length row = im_w i /\ forall p, In p row -> px_ok p = true) ->
  img_ok i = true.
Proof.
  intros Hh Hrows. unfold img_ok. apply andb_true_iff. split; [apply Nat.eqb_eq; exact Hh|].
  apply forallb_forall. intros row Hrow. destruct (Hrows row Hrow) as [Hw Hp].
  apply andb_true_iff. split; [apply Nat.eqb_eq; exact Hw|].
  apply forallb_forall. exact Hp.
Qed.

Lemma set_alpha_rows (src : list (list rgba)) (a : Z) w :
  (forall r, In r src -> List.length r = w) ->
  forall r, In r (map (map (set_alpha a)) src) -> List.length r = w.
Proof.
  intros H r Hr. apply in_map_iff in Hr as [r0 [<- Hr0]]. rewrite length_map. apply H, Hr0.
Qed.

Lemma first_layer_ok (img_no2 : image) (a : Z) :
  img_ok img_no2 = true ->
  let rows := zip_with (zip_with composite_px) (repeat (repeat white (im_w img_no2)) (im_h img_no2))
                (map (map (set_alpha a)) (im_px img_no2)) in
  List.length rows = im_h img_no2 /\
  forall r, In r rows -> List.length r = im_w img_no2 /\ forall p, In p r -> px_ok p = true.
Proof.
  intros Hn. destruct (img_ok_spec _ Hn) as [Nh Nrows].
  apply zip_rows_ok.
  - apply repeat_length.
  - rewrite length_map. exact Nh.
  - intros r Hr. apply in_repeat in Hr. subst r. split; [apply repeat_length|].
    intros p Hp. apply in_repeat in Hp. subst p. reflexivity.
  - apply set_alpha_rows. intros r Hr. apply Nrows, Hr.
Qed.

Lemma match_size_ok resize
  (Hresize : forall i s, img_ok i = true -> img_ok (resize i s) = true /\ size (resize i s) = s)
  (img_no2 img_t21 : image) :
  img_ok img_t21 = true ->
  img_ok (match_size resize img_no2 img_t21) = true /\
  size (match_size resize img_no2 img_t21) = size img_no2.
Proof.
  intros Ht. unfold match_size. destruct (size_eqb img_no2 img_t21) eqn:E; simpl.
  - split; [exact Ht|]. apply size_eqb_spec in E. symmetry. exact E.
  - apply Hresize, Ht.
Qed.

(** With the T21 opacity at 1.0 and well-formed rasters, the overlay is the
    T21 raster, resized to the NO2 size when the sizes differ, with its
    alpha set to 255: neither the NO2 raster nor its opacity shows
    (lines 311-328). *)
Theorem overlay_t21_full_hides_no2 resize
  (Hresize : forall i s, img_ok i = true -> img_ok (resize i s) = true /\ size (resize i s) = s)
  blend o1 (img_no2 img_t21 : image) :
  img_ok img_no2 = true -> img_ok img_t21 = true ->
  overlay resize blend o1 1 img_no2 img_t21 =
    Some (putalpha (match_size resize img_no2 img_t21) 255).
Proof.
  intros Hn Ht.
  destruct (match_size_ok resize Hresize img_no2 img_t21 Ht) as [Tok Tsize].
  set (t := match_size resize img_no2 img_t21) in *.
  destruct (img_ok_spec _ Tok) as [Th Trows].
  unfold size in Tsize. injection Tsize as Tw Tht.
  rewrite overlay_eq. fold t. rewrite alpha_of_opacity_1. unfold alpha_composite.
  rewrite size_eqb_true by (unfold size, putalpha; cbn; congruence).
  destruct (first_layer_ok img_no2 (alpha_of_opacity o1) Hn) as [IL IR].
  unfold putalpha at 1; cbn [im_px im_w im_h].
  rewrite (composite_rows_opaque _ _ (im_w img_no2)).
  - unfold putalpha. rewrite Tw, Tht. reflexivity.
  - rewrite IL. congruence.
  - intros x Hx. apply (IR x Hx).
  - intros r Hr. rewrite <- Tw. apply Trows, Hr.
Qed.

(** For opacities in the sliders' range [0.0, 1.0] (lines 292-295),
    [int(255 * opacity)] passed to [putalpha] is a valid alpha byte, and a
    larger opacity never gives a smaller alpha (lines 320, 324). *)
Theorem slider_alpha_byte (op1 op2 : Q) :
  (0 <= op1)%Q -> (op1 <= op2)%Q -> (op2 <= 1)%Q ->
  0 <= alpha_of_opacity op1 <= alpha_of_opacity op2 /\ alpha_of_opacity op2 <= 255.
Proof.
  intros H0 H12 H1.
  assert (H02 : (0 <= op2)%Q) by (eapply Qle_trans; eassumption).
  rewrite !alpha_of_opacity_floor by assumption.
  assert (M : forall x y, (x <= y)%Q -> ((255 # 1) * x <= (255 # 1) * y)%Q).
  { intros x y Hxy. apply Qmult_le_l; [reflexivity | exact Hxy]. }
  split; [split|].
  - change 0 with (Qfloor ((255 # 1) * 0)). apply Qfloor_resp_le, M, H0.
  - apply Qfloor_resp_le, M, H12.
  - change 255 with (Qfloor ((255 # 1) * 1)). apply Qfloor_resp_le, M, H1.
Qed.

End OverlayExtra.

Module OverlayExtraChecks.

Import PILFacts Overlay OverlayFacts OverlayExtra Samples.

Local Open Scope Z_scope.

Lemma resize_nearest_ok (i : image) (s : nat * nat) :
  img_ok i = true -> img_ok (resize_nearest i s) = true /\ size (resize_nearest i s) = s.
Proof.
  intros Hi. destruct s as [w h]. split; [|reflexivity].
  destruct (img_ok_spec _ Hi) as [_ Hrows].
  apply img_ok_intro; cbn [resize_nearest im_px im_w im_h].
  - rewrite length_map, length_seq. reflexivity.
  - intros row Hrow. apply in_map_iff in Hrow as [y [<- _]].
    split; [rewrite length_map, length_seq; reflexivity|].
    intros p Hp. apply in_map_iff in Hp as [x [<- _]].
    destruct (nth_in_or_default (y * im_h i / h) (im_px i) []) as [Hin | Hdef].
    + destruct (nth_in_or_default (x * im_w i / w) (nth (y * im_h i / h) (im_px i) [])
                  (mkRGBA 0 0 0 0)) as [Hp | ->]; [|reflexivity].
      exact (proj2 (Hrows _ Hin) _ Hp).
    + rewrite Hdef. destruct (x * im_w i / w)%nat; reflexivity.
Qed.

Lemma overlay_always_opaque_witness :
  overlay resize_nearest Normal (1 # 2) (1 # 3) img_a img_c
    = Some (mkImage 2 1 [[mkRGBA 154 97 101 255; mkRGBA 87 87 88 255]]) /\
  all_opaque (mkImage 2 1 [[mkRGBA 154 97 101 255; mkRGBA 87 87 88 255]]) = true.
Proof.
  split; [vm_compute; reflexivity|].
  apply (overlay_always_opaque resize_nearest Normal (1 # 2) (1 # 3) img_a img_c).
  vm_compute. reflexivity.
Defined.

Lemma overlay_t21_full_hides_no2_witness :
  img_ok img_a = true /\ img_ok img_c = true /\
  overlay resize_nearest Normal (1 # 2) 1 img_a img_c =
    Some (putalpha (match_size resize_nearest img_a img_c) 255).
Proof.
  split; [reflexivity|]. split; [reflexivity|].
  exact (overlay_t21_full_hides_no2 resize_nearest resize_nearest_ok Normal (1 # 2)
           img_a img_c eq_refl eq_refl).
Defined.

Lemma slider_alpha_byte_witness :
  ((0 <= 1 # 10)%Q /\ (1 # 10 <= 7 # 10)%Q /\ (7 # 10 <= 1)%Q) /\
  0 <= alpha_of_opacity (1 # 10) <= alpha_of_opacity (7 # 10) /\ alpha_of_opacity (7 # 10) <= 255.
Proof.
  split; [split; [|split]; unfold Qle; simpl; lia|].
  apply slider_alpha_byte; unfold Qle; simpl; lia.
Defined.

End OverlayExtraChecks.

(** ** The time-series tab and the run as a whole *)

Module StatsExtra.

Import Data DataFacts Dash PanelFacts.

Local Open Scope nat_scope.
Local Open Scope string_scope.

Lemma Qmax_cases (a b : Q) : Qmax a b = a \/ Qmax a b = b.
Proof. unfold Qmax, GenericMinMax.gmax. destruct (a ?= b)%Q; auto. Qed.

Lemma fold_Qmax_in (l : list Q) (acc : Q) : In (fold_left Qmax l acc) (acc :: l).
Proof.
  revert acc; induction l as [|x l IH]; intros acc; cbn [fold_left]; [left; reflexivity|].
  destruct (IH (Qmax acc x)) as [E | H].
  - destruct (Qmax_cases acc x) as [E' | E']; rewrite <- E, E'; simpl; auto.
  - simpl; auto.
Qed.

Lemma fold_Qmax_acc (l : list Q) (acc : Q) : (acc <= fold_left Qmax l acc)%Q.
Proof.
  revert acc; induction l as [|x l IH]; intros acc; cbn [fold_left]; [apply Qle_refl|].
  eapply Qle_trans; [apply Q.le_max_l | apply IH].
Qed.

Lemma fold_Qmax_ge (l : list Q) (acc y : Q) : In y (acc :: l) -> (y <= fold_left Qmax l acc)%Q.
Proof.
  revert acc; induction l as [|x l IH]; intros acc Hy; cbn [fold_left].
  - destruct Hy as [<- | []]. apply Qle_refl.
  - destruct Hy as [<- | [<- | Hy]].
    + eapply Qle_trans; [apply Q.le_max_l | apply fold_Qmax_acc].
    + eapply Qle_trans; [apply Q.le_max_r | apply fold_Qmax_acc].
    + apply IH. right. exact Hy.
Qed.

Lemma qmax_in (l : list Q) : l <> [] -> In (qmax l) l.
Proof. destruct l as [|x l]; [contradiction|]. intros _. apply fold_Qmax_in. Qed.

Lemma qmax_ge (l : list Q) (y : Q) : In y l -> (y <= qmax l)%Q.
Proof. destruct l as [|x l]; [intros []|]. apply fold_Qmax_ge. Qed.

Lemma first_index_of_some (m : Q) (l : list Q) (i : nat) :
  first_index_of m l = Some i ->
  exists x, nth_error l i = Some x /\ (x == m)%Q /\
    forall j y, (j < i)%nat -> nth_error l j = Some y -> ~ (y == m)%Q.
Proof.
  revert i; induction l as [|x l IH]; intros i H; cbn [first_index_of] in H; [discriminate|].
  destruct (Qeq_bool x m) eqn:E.
  - injection H as <-. exists x. split; [reflexivity|]. split; [apply Qeq_bool_eq, E|].
    intros j y Hj. lia.
  - destruct (first_index_of m l) as [k|] eqn:Hk; cbn [option_map] in H; [|discriminate].
    injection H as <-. destruct (IH k eq_refl) as (y & Hy & Hym & Hmin).
    exists y. split; [exact Hy|]. split; [exact Hym|].
    intros [|j] z Hj Hz; cbn [nth_error] in Hz.
    + injection Hz as <-. intros Hx. apply Qeq_bool_iff in Hx. congruence.
    + apply (Hmin j z); [lia | exact Hz].
Qed.

Lemma first_index_of_in (m : Q) (l : list Q) :
  In m l -> exists i, first_index_of m l = Some i.
Proof.
  induction l as [|x l IH]; intros H; [destruct H|]. cbn [first_index_of].
  destruct (Qeq_bool x m) eqn:E; [exists 0%nat; reflexivity|].
  destruct H as [<- | H].
  - rewrite Qeq_bool_refl in E. discriminate.
  - destruct (IH H) as [i Hi]. rewrite Hi. exists (S i). reflexivity.
Qed.

Lemma idxmax_spec (l : list Q) (h : heap) :
  l <> [] ->
  exists i x, idxmax l h = ([], h, inr i) /\ nth_error l i = Some x /\ (x == qmax l)%Q /\
    (forall y, In y l -> (y <= x)%Q) /\
    (forall j y, (j < i)%nat -> nth_error l j = Some y -> (y < x)%Q).
Proof.
  intros Hne.
  destruct (first_index_of_in (qmax l) l (qmax_in l Hne)) as [i Hi].
  destruct (first_index_of_some _ _ _ Hi) as (x & Hx & Hxm & Hmin).
  exists i, x. split.
  { unfold idxmax. destruct l as [|a l']; [contradiction|]. rewrite Hi. reflexivity. }
  split; [exact Hx|]. split; [exact Hxm|]. split.
  - intros y Hy. rewrite Hxm. apply qmax_ge, Hy.
  - intros j y Hj Hy. pose proof (qmax_ge l y (nth_error_In _ _ Hy)) as Hle.
    rewrite <- Hxm in Hle. apply Qle_lteq in Hle as [Hlt | Heq]; [exact Hlt|].
    exfalso. apply (Hmin j y Hj Hy). rewrite Heq. exact Hxm.
Qed.

Lemma nth_error_last {A : Type} (l : list A) (x : A) : nth_error (l ++ [x])%list (List.length l) = Some x.
Proof. rewrite nth_error_app2, Nat.sub_diag by lia. reflexivity. Qed.

Lemma replace_nth_last {A : Type} (l : list A) (x y : A) :
  replace_nth (l ++ [x])%list (List.length l) y = (l ++ [y])%list.
Proof. induction l as [|z l IH]; simpl; [reflexivity|]. rewrite IH. reflexivity. Qed.

Lemma get_frame_last (h : heap) f :
  get_frame (List.length h) (h ++ [OFrame f])%list = ([], (h ++ [OFrame f])%list, inr f).
Proof. unfold get_frame, deref, bind. rewrite nth_error_last. reflexivity. Qed.

Lemma get_column_last (h : heap) f n c :
  col_lookup f n = Some c ->
  get_column (List.length h) n (h ++ [OFrame f])%list = ([], (h ++ [OFrame f])%list, inr c).
Proof. intros E. unfold get_column, bind. rewrite get_frame_last, E. reflexivity. Qed.

Lemma set_column_last (h : heap) f n c :
  set_column (List.length h) n c (h ++ [OFrame f])%list =
    ([], (h ++ [OFrame (col_assign f n c)])%list, inr tt).
Proof.
  unfold set_column, bind. rewrite get_frame_last. unfold store. rewrite replace_nth_last.
  reflexivity.
Qed.

Lemma copy_frame_ok (p : nat) (h : heap) f :
  nth_error h p = Some (OFrame f) ->
  copy_frame p h = ([], (h ++ [OFrame f])%list, inr (List.length h)).
Proof. intros H. unfold copy_frame, get_frame, deref, bind. rewrite H. reflexivity. Qed.

Lemma table_view_spec (p : nat) (h : heap) (rows : list row) :
  nth_error h p = Some (OFrame (frame_of_rows rows)) ->
  table_view p h =
    ([DataTable [("Fecha", CFmt (map (fun r => DText (strftime_ym (Fecha r))) rows));
                 ("NO2", CFmt (map (fun r => DNum ".2e" (NO2 r)) rows));
                 ("T21", CFmt (map (fun r => DNum ".2f" (T21 r)) rows))]],
     (h ++ [OFrame [("Fecha", CFmt (map (fun r => DText (strftime_ym (Fecha r))) rows));
                   ("NO2", CFmt (map (fun r => DNum ".2e" (NO2 r)) rows));
                   ("T21", CFmt (map (fun r => DNum ".2f" (T21 r)) rows))]])%list,
     inr tt).
Proof.
  intros Hh. unfold table_view.
  rewrite (bind_inr _ _ _ _ _ _ (copy_frame_ok _ _ _ Hh)). cbv beta.
  do 6 (erewrite bind_inr;
         [| first [ apply get_column_last; reflexivity | apply set_column_last ]];
         cbv beta iota).
  rewrite (bind_inr _ _ _ _ _ _ (get_frame_last h _)). cbv beta iota.
  unfold frame_of_rows. rewrite !map_map. reflexivity.
Qed.

Lemma nth_error_map_some {A B : Type} (f : A -> B) (l : list A) (i : nat) (y : B) :
  nth_error (map f l) i = Some y -> exists x, nth_error l i = Some x /\ f x = y.
Proof.
  rewrite nth_error_map. destruct (nth_error l i) as [x|]; cbn; [|discriminate].
  intros E. injection E as <-. exists x. auto.
Qed.

Lemma idxmax_rows (f : row -> Q) (rows : list row) (h : heap) :
  rows <> [] ->
  exists i r, idxmax (map f rows) h = ([], h, inr i) /\ nth_error rows i = Some r /\
    (f r == qmax (map f rows))%Q /\
    (forall r', In r' rows -> (f r' <= f r)%Q) /\
    (forall j r', (j < i)%nat -> nth_error rows j = Some r' -> (f r' < f r)%Q).
Proof.
  intros Hne.
  destruct (idxmax_spec (map f rows) h) as (i & x & Hi & Hx & Hxm & Hge & Hlt).
  { destruct rows; [contradiction | discriminate]. }
  destruct (nth_error_map_some _ _ _ _ Hx) as (r & Hr & <-).
  exists i, r. split; [exact Hi|]. split; [exact Hr|]. split; [exact Hxm|]. split.
  - intros r' Hr'. apply Hge, in_map, Hr'.
  - intros j r' Hj Hr'. apply (Hlt j); [exact Hj|]. rewrite nth_error_map, Hr'. reflexivity.
Qed.

(** [np.polyfit(range(n), y, 1)] fits once there are two points. *)
Lemma polyfit_singular_range (n : nat) :
  (2 <= n)%nat -> polyfit_singular (qrange n) = false.
Proof.
  intros Hn. destruct (polyfit_singular (qrange n)) eqn:E; [|reflexivity].
  exfalso. unfold polyfit_singular in E. rewrite forallb_forall in E.
  assert (H1 : In (inject_Z (Z.of_nat 1)) (qrange n)).
  { unfold qrange. apply in_map_iff. exists 1%nat. split; [reflexivity|]. apply in_seq. lia. }
  specialize (E _ H1). vm_compute in E. discriminate.
Qed.

Lemma tab2_spec (p : nat) (h : heap) (rows : list row) :
  nth_error h p = Some (OFrame (frame_of_rows rows)) -> (2 <= List.length rows)%nat ->
  let shown :=
    [("Fecha", CFmt (map (fun r => DText (strftime_ym (Fecha r))) rows));
     ("NO2", CFmt (map (fun r => DNum ".2e" (NO2 r)) rows));
     ("T21", CFmt (map (fun r => DNum ".2f" (T21 r)) rows))] in
  exists i rn j rt,
    nth_error rows i = Some rn /\ (NO2 rn == qmax (map NO2 rows))%Q /\
    (forall r, In r rows -> (NO2 r <= NO2 rn)%Q) /\
    (forall k r, (k < i)%nat -> nth_error rows k = Some r -> (NO2 r < NO2 rn)%Q) /\
    nth_error rows j = Some rt /\ (T21 rt == qmax (map T21 rows))%Q /\
    (forall r, In r rows -> (T21 r <= T21 rt)%Q) /\
    (forall k r, (k < j)%nat -> nth_error rows k = Some r -> (T21 r < T21 rt)%Q) /\
    tab2 p h =
      ([Subheader "Evolucion Temporal - Ano 2024";
        Chart "Series temporales" (map NO2 rows) (map T21 rows);
        Markdown "### Estadisticas del Ano 2024";
        Metric "NO2 Promedio" (DNum ".2e" (qmean (map NO2 rows))) None;
        Metric "NO2 Maximo" (DNum ".2e" (qmax (map NO2 rows)))
               (Some (DText (month_name (Fecha rn))));
        Metric "T21 Promedio" (DNum ".1f K" (qmean (map T21 rows))) None;
        Metric "T21 Maximo" (DNum ".1f K" (qmax (map T21 rows)))
               (Some (DText (month_name (Fecha rt))));
        Expander "Ver Tabla de Datos Completa";
        DataTable shown],
       (h ++ [OFrame shown])%list, inr tt).
Proof.
  intros Hh H2. cbv zeta.
  assert (Hne : rows <> []) by (intros ->; cbn in H2; lia).
  destruct (idxmax_rows NO2 rows h Hne) as (i & rn & Hi & Hrn & Hmn & Hgen & Hltn).
  destruct (idxmax_rows T21 rows h Hne) as (j & rt & Hj & Hrt & Hmt & Hget & Hltt).
  exists i, rn, j, rt. repeat (split; [assumption|]).
  assert (Hm : (match rows with [] => raise "TypeError" | _ => ret tt end : App unit) = ret tt)
    by (destruct rows; [contradiction | reflexivity]).
  unfold tab2. rewrite PageFacts.bind_emit.
  rewrite (bind_inr _ _ _ _ _ _ (read_rows_ok _ _ _ Hh)). cbv beta. rewrite Hm.
  unfold bind at 1. cbn [ret]. rewrite (polyfit_singular_range _ H2).
  unfold bind at 1. cbn [ret]. rewrite !PageFacts.bind_emit.
  rewrite (bind_inr _ _ _ _ _ _ Hi). cbv beta. rewrite Hrn. cbn [option_map].
  rewrite !PageFacts.bind_emit.
  rewrite (bind_inr _ _ _ _ _ _ Hj). cbv beta. rewrite Hrt. cbn [option_map].
  rewrite !PageFacts.bind_emit. rewrite (table_view_spec _ _ _ Hh). reflexivity.
Qed.

Lemma tab3_ok (p : nat) (h : heap) (rows : list row) :
  nth_error h p = Some (OFrame (frame_of_rows rows)) -> rows <> [] ->
  polyfit_singular (map NO2 rows) = false ->
  exists t, tab3 p h = (t, h, inr tt).
Proof.
  intros Hh Hne Hfit. unfold tab3. rewrite PageFacts.bind_emit.
  rewrite (bind_inr _ _ _ _ _ _ (read_rows_ok _ _ _ Hh)). cbv beta.
  destruct rows; [contradiction|]. unfold bind at 1. cbn [ret]. rewrite Hfit.
  eexists. reflexivity.
Qed.

Lemma available_months_nonempty (rows : list row) :
  rows <> [] -> available_months rows <> [].
Proof.
  destruct rows as [|r rows]; [contradiction|]. intros _ E.
  assert (H : In (strftime_ym (Fecha r)) (available_months (r :: rows)))
    by (apply in_available_months; left; reflexivity).
  rewrite E in H. destruct H.
Qed.

Lemma controls_ok (p : nat) (h : heap) (rows : list row) (choice : option nat) (sel : string) :
  nth_error h p = Some (OFrame (frame_of_rows rows)) ->
  nth_error (available_months rows) (choice_index (available_months rows) choice) = Some sel ->
  exists t, controls p choice h = (t, h, inr sel).
Proof.
  intros Hh Hc.
  destruct (selected_month_row rows choice sel Hc) as (k & r & Hk & Hr & _ & _).
  assert (Hs : selected_data rows sel = Some r) by (unfold selected_data; rewrite Hk; exact Hr).
  run_controls_head Hh Hc Hs Hk.
  destruct (1 <? List.length rows)%nat; [|eexists; reflexivity].
  destruct (0 <? k)%nat eqn:E0; [|eexists; reflexivity].
  apply Nat.ltb_lt in E0.
  destruct (nth_error_before rows k (k - 1) r Hr ltac:(lia)) as [prev Hprev].
  rewrite Hprev. eexists; reflexivity.
Qed.

(** With both data files present, a CSV of at least two rows whose NO2
    column [np.polyfit] can scale (some value with a square above 2^-1075),
    and a month choice within the available months, a run of the script on
    an empty cache ends normally (no [st.stop()], no exception), with the
    loaded frame and metadata at the bottom of the heap, and caches
    [load_data()] (lines 151-176, 194-627). *)
Theorem run_completes resize (Hresize : forall i s, size (resize i s) = s)
    (fs : files) (w : widgets) (rows : list row) (m : list (string * string)) :
  fs_csv fs = Some rows -> fs_meta fs = Some m -> (2 <= List.length rows)%nat ->
  polyfit_singular (map NO2 rows) = false ->
  (forall i, w_month w = Some i -> (i < List.length (available_months rows))%nat) ->
  exists t s, run resize None fs w =
    ((t, (OFrame (frame_of_rows rows) :: OMeta m :: s)%list, inr tt), Some (load_data fs)).
Proof.
  intros Hcsv Hmeta H2 Hfit Hw.
  assert (Hne : rows <> []) by (intros ->; cbn in H2; lia).
  set (h0 := [OFrame (frame_of_rows rows); OMeta m]).
  assert (Hh0 : nth_error h0 0 = Some (OFrame (frame_of_rows rows))) by reflexivity.
  assert (HL : load_data fs = (Some rows, Some m, None))
    by (unfold load_data; rewrite Hcsv, Hmeta; reflexivity).
  destruct (nth_error (available_months rows) (choice_index (available_months rows) (w_month w)))
    as [sel|] eqn:Hc.
  2: { exfalso. apply nth_error_None in Hc. unfold choice_index in Hc.
       destruct (w_month w) as [i|] eqn:Ew.
       - specialize (Hw i eq_refl). lia.
       - pose proof (available_months_nonempty rows Hne) as N.
         destruct (available_months rows); [contradiction | cbn in Hc; lia]. }
  destruct (controls_ok 0 h0 rows (w_month w) sel Hh0 Hc) as [t1 E1].
  destruct (PageFacts.tab1_total resize Hresize fs w sel h0) as [t2 E2].
  destruct (tab2_spec 0 h0 rows Hh0 H2) as (i & rn & j & rt & _ & _ & _ & _ & _ & _ & _ & _ & E3).
  set (h1 := (h0 ++ _)%list) in E3.
  assert (Hh1 : nth_error h1 0 = Some (OFrame (frame_of_rows rows))) by reflexivity.
  destruct (tab3_ok 0 h1 rows Hh1 Hne Hfit) as [t4 E4].
  assert (ED : exists tD, dashboard resize fs w 0 h0 = (tD, h1, inr tt)).
  { unfold dashboard. rewrite !PageFacts.bind_emit.
    rewrite (bind_inr _ _ _ _ _ _ E1). cbv beta. rewrite PageFacts.bind_emit.
    rewrite (bind_inr _ _ _ _ _ _ E2). cbv beta.
    rewrite (bind_inr _ _ _ _ _ _ E3). cbv beta.
    rewrite (bind_inr _ _ _ _ _ _ E4). cbv beta.
    eexists. reflexivity. }
  destruct ED as [tD ED].
  unfold run, cached_load_data. rewrite HL.
  unfold page. cbn -[dashboard]. fold h0. rewrite ED.
  eexists. eexists. reflexivity.
Qed.

(** A CSV file without rows: [available_months] is empty, the month
    selectbox has no option and returns [None], and
    [df[...].iloc[0]] raises [IndexError] right after it, so that nothing
    below the selectbox is rendered (lines 197-206). *)
Theorem empty_csv_index_error resize (fs : files) (w : widgets) (m : list (string * string)) :
  fs_csv fs = Some [] -> fs_meta fs = Some m ->
  run resize None fs w =
    (([PageConfig "NO2 y T21 - Peninsula de Yucatan";
       Radio "Tema:" ["Claro"; "Oscuro"];
       Markdown (css (w_theme w));
       Markdown "NO2 y T21 (Incendios) en la Peninsula de Yucatan";
       Markdown "Analisis de datos satelitales mensuales - 2024";
       Selectbox "Selecciona el mes:" []],
      [OFrame (frame_of_rows []); OMeta m], inl (Raised "IndexError")),
     Some (Some [], Some m, None)).
Proof.
  intros Hcsv Hmeta. unfold run, cached_load_data, load_data. rewrite Hcsv, Hmeta.
  destruct w as [th [[|i]|] vw o1 o2 bl ly]; reflexivity.
Qed.

(** The statistics of the time-series tab: for at least two loaded rows
    (so that [np.polyfit] on line 431 fits), the tab shows
    the means and maxima of NO2 and T21, labels each maximum with the month
    of the first row where it is reached, and shows the full table with the
    dates as [YYYY-MM] and the values formatted; the table is a new frame
    added to the heap, the loaded one is not written (lines 490-526). *)
Theorem tab2_statistics (p : nat) (h : heap) (rows : list row) :
  nth_error h p = Some (OFrame (frame_of_rows rows)) -> (2 <= List.length rows)%nat ->
  let shown :=
    [("Fecha", CFmt (map (fun r => DText (strftime_ym (Fecha r))) rows));
     ("NO2", CFmt (map (fun r => DNum ".2e" (NO2 r)) rows));
     ("T21", CFmt (map (fun r => DNum ".2f" (T21 r)) rows))] in
  exists i rn j rt,
    nth_error rows i = Some rn /\ (NO2 rn == qmax (map NO2 rows))%Q /\
    (forall r, In r rows -> (NO2 r <= NO2 rn)%Q) /\
    (forall k r, (k < i)%nat -> nth_error rows k = Some r -> (NO2 r < NO2 rn)%Q) /\
    nth_error rows j = Some rt /\ (T21 rt == qmax (map T21 rows))%Q /\
    (forall r, In r rows -> (T21 r <= T21 rt)%Q) /\
    (forall k r, (k < j)%nat -> nth_error rows k = Some r -> (T21 r < T21 rt)%Q) /\
    tab2 p h =
      ([Subheader "Evolucion Temporal - Ano 2024";
        Chart "Series temporales" (map NO2 rows) (map T21 rows);
        Markdown "### Estadisticas del Ano 2024";
        Metric "NO2 Promedio" (DNum ".2e" (qmean (map NO2 rows))) None;
        Metric "NO2 Maximo" (DNum ".2e" (qmax (map NO2 rows)))
               (Some (DText (month_name (Fecha rn))));
        Metric "T21 Promedio" (DNum ".1f K" (qmean (map T21 rows))) None;
        Metric "T21 Maximo" (DNum ".1f K" (qmax (map T21 rows)))
               (Some (DText (month_name (Fecha rt))));
        Expander "Ver Tabla de Datos Completa";
        DataTable shown],
       (h ++ [OFrame shown])%list, inr tt).
Proof. apply tab2_spec. Qed.

End StatsExtra.

Module StatsExtraChecks.

Import Data DataFacts Dash PanelFacts StatsExtra Samples.

Local Open Scope nat_scope.
Local Open Scope string_scope.

Lemma run_completes_witness :
  (forall i s, size (resize_nearest i s) = s) /\
  fs_csv files_feb_no_t21 = Some rows_2024 /\ fs_meta files_feb_no_t21 = Some meta_2024 /\
  (2 <= List.length rows_2024)%nat /\ polyfit_singular (map NO2 rows_2024) = false /\
  (forall i, w_month widgets_side = Some i -> (i < List.length (available_months rows_2024))%nat) /\
  exists t s, run resize_nearest None files_feb_no_t21 widgets_side =
    ((t, (OFrame (frame_of_rows rows_2024) :: OMeta meta_2024 :: s)%list, inr tt),
     Some (load_data files_feb_no_t21)).
Proof.
  assert (Hr : forall i s, size (resize_nearest i s) = s) by (intros i [w h]; reflexivity).
  assert (Hw : forall i, w_month widgets_side = Some i ->
                 (i < List.length (available_months rows_2024))%nat).
  { intros i E. injection E as <-. vm_compute. lia. }
  split; [exact Hr|]. split; [reflexivity|]. split; [reflexivity|].
  split; [cbn; lia|]. split; [vm_compute; reflexivity|]. split; [exact Hw|].
  exact (run_completes resize_nearest Hr files_feb_no_t21 widgets_side rows_2024 meta_2024
           eq_refl eq_refl ltac:(cbn; lia) ltac:(vm_compute; reflexivity) Hw).
Defined.

Lemma empty_csv_index_error_witness :
  fs_csv (mkFiles (Some []) (Some meta_2024) true (fun _ => None)) = Some [] /\
  fs_meta (mkFiles (Some []) (Some meta_2024) true (fun _ => None)) = Some meta_2024 /\
  run resize_nearest None (mkFiles (Some []) (Some meta_2024) true (fun _ => None)) widgets_side =
    (([PageConfig "NO2 y T21 - Peninsula de Yucatan";
       Radio "Tema:" ["Claro"; "Oscuro"];
       Markdown (css (w_theme widgets_side));
       Markdown "NO2 y T21 (Incendios) en la Peninsula de Yucatan";
       Markdown "Analisis de datos satelitales mensuales - 2024";
       Selectbox "Selecciona el mes:" []],
      [OFrame (frame_of_rows []); OMeta meta_2024], inl (Raised "IndexError")),
     Some (Some [], Some meta_2024, None)).
Proof.
  split; [reflexivity|]. split; [reflexivity|].
  apply (empty_csv_index_error resize_nearest
           (mkFiles (Some []) (Some meta_2024) true (fun _ => None)) widgets_side meta_2024);
    reflexivity.
Defined.

Lemma tab2_statistics_witness :
  nth_error heap_2024 0 = Some (OFrame (frame_of_rows rows_2024)) /\
  (2 <= List.length rows_2024)%nat /\
  let shown :=
    [("Fecha", CFmt (map (fun r => DText (strftime_ym (Fecha r))) rows_2024));
     ("NO2", CFmt (map (fun r => DNum ".2e" (NO2 r)) rows_2024));
     ("T21", CFmt (map (fun r => DNum ".2f" (T21 r)) rows_2024))] in
  exists i rn j rt,
    nth_error rows_2024 i = Some rn /\ (NO2 rn == qmax (map NO2 rows_2024))%Q /\
    (forall r, In r rows_2024 -> (NO2 r <= NO2 rn)%Q) /\
    (forall k r, (k < i)%nat -> nth_error rows_2024 k = Some r -> (NO2 r < NO2 rn)%Q) /\
    nth_error rows_2024 j = Some rt /\ (T21 rt == qmax (map T21 rows_2024))%Q /\
    (forall r, In r rows_2024 -> (T21 r <= T21 rt)%Q) /\
    (forall k r, (k < j)%nat -> nth_error rows_2024 k = Some r -> (T21 r < T21 rt)%Q) /\
    tab2 0 heap_2024 =
      ([Subheader "Evolucion Temporal - Ano 2024";
        Chart "Series temporales" (map NO2 rows_2024) (map T21 rows_2024);
        Markdown "### Estadisticas del Ano 2024";
        Metric "NO2 Promedio" (DNum ".2e" (qmean (map NO2 rows_2024))) None;
        Metric "NO2 Maximo" (DNum ".2e" (qmax (map NO2 rows_2024)))
               (Some (DText (month_name (Fecha rn))));
        Metric "T21 Promedio" (DNum ".1f K" (qmean (map T21 rows_2024))) None;
        Metric "T21 Maximo" (DNum ".1f K" (qmax (map T21 rows_2024)))
               (Some (DText (month_name (Fecha rt))));
        Expander "Ver Tabla de Datos Completa";
        DataTable shown],
       (heap_2024 ++ [OFrame shown])%list, inr tt).
Proof.
  split; [reflexivity|]. split; [cbn; lia|].
  exact (tab2_statistics 0 heap_2024 rows_2024 eq_refl ltac:(cbn; lia)).
Defined.

End StatsExtraChecks.

(** ** The month selector *)

Module MonthExtra.

Import Data DataFacts Dash PanelFacts StatsExtra.

Local Open Scope nat_scope.
Local Open Scope string_scope.

Lemma cmp_lex (x y a b n : nat) :
  (a < n)%nat -> (b < n)%nat ->
  Nat.compare (x * n + a) (y * n + b) =
    match Nat.compare x y with Eq => Nat.compare a b | c => c end.
Proof.
  intros Ha Hb. destruct (Nat.compare_spec x y) as [<- | H | H].
  - destruct (Nat.compare_spec a b) as [<- | H | H].
    + apply Nat.compare_refl.
    + apply Nat.compare_lt_iff. lia.
    + apply Nat.compare_gt_iff. lia.
  - apply Nat.compare_lt_iff. nia.
  - apply Nat.compare_gt_iff. nia.
Qed.

Lemma cmp_split10 (x y : nat) :
  Nat.compare x y =
    match Nat.compare (x / 10) (y / 10) with
    | Eq => Nat.compare (x mod 10) (y mod 10) | c => c end.
Proof.
  rewrite (Nat.div_mod_eq x 10) at 1. rewrite (Nat.div_mod_eq y 10) at 1.
  rewrite (Nat.mul_comm 10 (x / 10)), (Nat.mul_comm 10 (y / 10)).
  apply cmp_lex; apply Nat.mod_upper_bound; lia.
Qed.

Lemma digit_cmp (a b : nat) :
  Ascii.compare (digit a) (digit b) = Nat.compare (a mod 10) (b mod 10).
Proof.
  unfold Ascii.compare, digit, ascii_of_nat.
  pose proof (Nat.mod_upper_bound a 10 ltac:(lia)).
  pose proof (Nat.mod_upper_bound b 10 ltac:(lia)).
  rewrite !N_ascii_embedding by lia.
  destruct (N.compare_spec (N.of_nat (48 + a mod 10)) (N.of_nat (48 + b mod 10)));
    destruct (Nat.compare_spec (a mod 10) (b mod 10)); try reflexivity; lia.
Qed.

Lemma strftime_Y_4 (y : nat) :
  (1000 <= y)%nat ->
  strftime_Y y = String (digit (y / 1000)) (String (digit (y / 100))
                   (String (digit (y / 10)) (String (digit y) EmptyString))).
Proof.
  intros Hy. unfold strftime_Y.
  replace (y <? 10)%nat with false by (symmetry; apply Nat.ltb_ge; lia).
  replace (y <? 100)%nat with false by (symmetry; apply Nat.ltb_ge; lia).
  replace (y <? 1000)%nat with false by (symmetry; apply Nat.ltb_ge; lia).
  reflexivity.
Qed.

Lemma strftime_ym_compare (d1 d2 : date) :
  (1000 <= yr d1)%nat -> (1000 <= yr d2)%nat ->
  (yr d1 < 10 ^ 4)%nat -> (yr d2 < 10 ^ 4)%nat -> (mo d1 < 100)%nat -> (mo d2 < 100)%nat ->
  String.compare (strftime_ym d1) (strftime_ym d2) =
    Nat.compare (yr d1 * 100 + mo d1) (yr d2 * 100 + mo d2).
Proof.
  intros L1 L2 Y1 Y2 M1 M2. cbn [Nat.pow] in Y1, Y2.
  unfold strftime_ym. rewrite !strftime_Y_4 by assumption.
  cbn [String.append String.compare]. rewrite !digit_cmp.
  rewrite cmp_lex by assumption.
  rewrite (cmp_split10 (yr d1)), (cmp_split10 (yr d1 / 10)), (cmp_split10 (yr d1 / 10 / 10)).
  rewrite !Nat.Div0.div_div. change (10 * 10 * 10)%nat with 1000%nat. change (10 * 10)%nat with 100%nat. change (10 * 100)%nat with 1000%nat.
  rewrite (cmp_split10 (mo d1)).
  rewrite (Nat.mod_small (yr d1 / 1000)) by (apply Nat.Div0.div_lt_upper_bound; lia).
  rewrite (Nat.mod_small (yr d2 / 1000)) by (apply Nat.Div0.div_lt_upper_bound; lia).
  rewrite (Nat.mod_small (mo d1 / 10)) by (apply Nat.Div0.div_lt_upper_bound; lia).
  rewrite (Nat.mod_small (mo d2 / 10)) by (apply Nat.Div0.div_lt_upper_bound; lia).
  destruct (Nat.compare (yr d1 / 1000) (yr d2 / 1000)); try reflexivity.
  destruct (Nat.compare (yr d1 / 100 mod 10) (yr d2 / 100 mod 10)); try reflexivity.
  destruct (Nat.compare (yr d1 / 10 mod 10) (yr d2 / 10 mod 10)); try reflexivity.
  destruct (Nat.compare (yr d1 mod 10) (yr d2 mod 10)); try reflexivity.
  assert (Ed : Ascii.compare "-" "-" = Eq) by reflexivity. rewrite Ed.
  destruct (Nat.compare (mo d1 / 10) (mo d2 / 10)); [|reflexivity..].
  destruct (Nat.compare (mo d1 mod 10) (mo d2 mod 10)); reflexivity.
Qed.

Lemma string_compare_le_trans (a b c : string) :
  String.compare a b <> Gt -> String.compare b c <> Gt -> String.compare a c <> Gt.
Proof.
  revert b c. induction a as [|x a IH]; intros [|y b] [|z c] H1 H2;
    cbn [String.compare] in *; try congruence.
  unfold Ascii.compare in *.
  destruct (N.compare_spec (N_of_ascii x) (N_of_ascii y)) as [Exy | Lxy | Gxy];
    destruct (N.compare_spec (N_of_ascii y) (N_of_ascii z)) as [Eyz | Lyz | Gyz];
    destruct (N.compare_spec (N_of_ascii x) (N_of_ascii z)) as [Exz | Lxz | Gxz];
    try congruence; try lia.
  apply (IH b c H1 H2).
Qed.

Lemma string_leb_trans (a b c : string) :
  String.leb a b = true -> String.leb b c = true -> String.leb a c = true.
Proof.
  unfold String.leb.
  destruct (String.compare a b) eqn:E1; try discriminate;
  destruct (String.compare b c) eqn:E2; try discriminate;
  destruct (String.compare a c) eqn:E3; try reflexivity;
  exfalso; refine (string_compare_le_trans a b c _ _ E3); congruence.
Qed.

Lemma perm_insert_sorted (x : string) (l : list string) :
  Permutation (insert_sorted x l) (x :: l).
Proof.
  induction l as [|y l IH]; cbn [insert_sorted]; [reflexivity|].
  destruct (String.leb x y); [reflexivity|].
  rewrite IH. apply perm_swap.
Qed.

Lemma perm_sorted (l : list string) : Permutation (sorted l) l.
Proof.
  induction l as [|x l IH]; cbn [sorted]; [reflexivity|].
  rewrite perm_insert_sorted, IH. reflexivity.
Qed.

Lemma nodup_unique (l : list string) : NoDup (unique l).
Proof.
  induction l as [|x l IH]; cbn [unique]; constructor.
  - rewrite filter_In. intros [_ H]. rewrite String.eqb_refl in H. discriminate.
  - apply NoDup_filter, IH.
Qed.

Lemma sorted_insert_sorted (x : string) (l : list string) :
  Sorted (fun a b => String.leb a b = true) l ->
  Sorted (fun a b => String.leb a b = true) (insert_sorted x l).
Proof.
  induction l as [|y l IH]; intros H; cbn [insert_sorted].
  - repeat constructor.
  - destruct (String.leb x y) eqn:Exy; [constructor; [exact H | constructor; exact Exy]|].
    apply Sorted_inv in H as [Hl Hhd].
    assert (Hyx : String.leb y x = true)
      by (destruct (String.leb_total x y); congruence).
    constructor; [apply IH, Hl|].
    destruct l as [|z l]; cbn [insert_sorted]; [constructor; exact Hyx|].
    destruct (String.leb x z); constructor; [exact Hyx|].
    apply HdRel_inv in Hhd. exact Hhd.
Qed.

Lemma sorted_sorted (l : list string) : Sorted (fun a b => String.leb a b = true) (sorted l).
Proof.
  induction l as [|x l IH]; cbn [sorted]; [constructor|]. apply sorted_insert_sorted, IH.
Qed.

Lemma strict_of_nodup (l : list string) :
  StronglySorted (fun a b => String.leb a b = true) l -> NoDup l ->
  StronglySorted (fun a b => String.compare a b = Lt) l.
Proof.
  induction l as [|x l IH]; intros Hs Hn; [constructor|].
  apply StronglySorted_inv in Hs as [Hs Hf]. inversion Hn as [|? ? Hx Hn']; subst.
  constructor; [apply IH; assumption|].
  rewrite Forall_forall in *. intros y Hy. specialize (Hf y Hy).
  unfold String.leb in Hf. destruct (String.compare x y) eqn:E; try discriminate; [|reflexivity].
  apply String.compare_eq_iff in E. subst. contradiction.
Qed.

(** [sorted(df['Fecha'].dt.strftime('%Y-%m').unique().tolist())] is
    strictly increasing in string order, so without duplicates, and holds
    exactly the months of the data (line 197). *)
Theorem available_months_sorted_unique (df : list row) :
  StronglySorted (fun a b => String.compare a b = Lt) (available_months df) /\
  (forall m, In m (available_months df) <-> In m (months df)).
Proof.
  split; [|intros m; apply in_available_months].
  apply strict_of_nodup.
  - apply Sorted_StronglySorted; [intros a b c; apply string_leb_trans|]. apply sorted_sorted.
  - unfold available_months. eapply Permutation_NoDup; [symmetry; apply perm_sorted|].
    apply nodup_unique.
Qed.

Lemma last_is_max (l : list string) (s : string) :
  StronglySorted (fun a b => String.leb a b = true) l ->
  nth_error l (List.length l - 1) = Some s ->
  forall y, In y l -> String.leb y s = true.
Proof.
  induction l as [|x l IH]; intros Hs Hn y Hy; [destruct Hy|].
  apply StronglySorted_inv in Hs as [Hs Hf]. rewrite Forall_forall in Hf.
  destruct l as [|z l'].
  - cbn in Hn. injection Hn as <-. destruct Hy as [<- | []].
    destruct (String.leb_total x x); assumption.
  - cbn [List.length] in Hn. replace (S (S (List.length l')) - 1)%nat
      with (S (List.length (z :: l') - 1))%nat in Hn by (cbn; lia).
    cbn [nth_error] in Hn.
    destruct Hy as [<- | Hy].
    + apply Hf. apply (nth_error_In _ _ Hn).
    + apply IH; assumption.
Qed.

(** With dates of four-digit years, the month selected by default
    ([index=len(available_months)-1]) is the latest month of the data
    (lines 197-205). *)
Theorem default_month_is_latest (p : nat) (h : heap) (rows : list row) :
  nth_error h p = Some (OFrame (frame_of_rows rows)) -> rows <> [] ->
  (forall r, In r rows ->
     (1000 <= yr (Fecha r))%nat /\ (yr (Fecha r) < 10 ^ 4)%nat /\ (mo (Fecha r) < 100)%nat) ->
  exists r t, In r rows /\ controls p None h = (t, h, inr (strftime_ym (Fecha r))) /\
    forall r', In r' rows ->
      (yr (Fecha r') * 100 + mo (Fecha r') <= yr (Fecha r) * 100 + mo (Fecha r))%nat.
Proof.
  intros Hh Hne Hb.
  pose proof (available_months_nonempty rows Hne) as Hav.
  destruct (nth_error (available_months rows) (List.length (available_months rows) - 1))
    as [sel|] eqn:Hc.
  2: { apply nth_error_None in Hc. destruct (available_months rows); [contradiction|].
       cbn in Hc. lia. }
  assert (Hin : In sel (months rows)) by (apply in_available_months, (nth_error_In _ _ Hc)).
  unfold months in Hin. apply in_map_iff in Hin as [r [Hr Hrin]].
  destruct (controls_ok p h rows None sel Hh Hc) as [t Ht].
  exists r, t. split; [exact Hrin|]. split; [rewrite Hr; exact Ht|].
  intros r' Hr'.
  assert (Hle : String.leb (strftime_ym (Fecha r')) sel = true).
  { apply (last_is_max (available_months rows)); [| exact Hc |].
    - apply Sorted_StronglySorted; [intros a b c; apply string_leb_trans|].
      apply sorted_sorted.
    - apply in_available_months. unfold months.
      apply (in_map (fun r0 => strftime_ym (Fecha r0))), Hr'. }
  rewrite <- Hr in Hle. unfold String.leb in Hle.
  destruct (Hb r Hrin) as (L1 & Y1 & M1). destruct (Hb r' Hr') as (L2 & Y2 & M2).
  rewrite strftime_ym_compare in Hle by assumption.
  destruct (Nat.compare_spec (yr (Fecha r') * 100 + mo (Fecha r'))
                             (yr (Fecha r) * 100 + mo (Fecha r))); lia || discriminate.
Qed.

(** For four-digit years (from 1000 to 9999) and months below 100,
    comparing two [%Y-%m] strings is comparing the (year, month) pairs:
    string order on the month selector is chronological order
    (lines 197, 206). *)
Theorem strftime_ym_order (d1 d2 : date) :
  (1000 <= yr d1)%nat -> (1000 <= yr d2)%nat ->
  (yr d1 < 10 ^ 4)%nat -> (yr d2 < 10 ^ 4)%nat -> (mo d1 < 100)%nat -> (mo d2 < 100)%nat ->
  String.compare (strftime_ym d1) (strftime_ym d2) =
    Nat.compare (yr d1 * 100 + mo d1) (yr d2 * 100 + mo d2).
Proof. apply strftime_ym_compare. Qed.

Lemma string_compare_refl (s : string) : String.compare s s = Eq.
Proof.
  induction s as [|a s IH]; cbn [String.compare]; [reflexivity|].
  unfold Ascii.compare. rewrite N.compare_refl. exact IH.
Qed.

Lemma digit_inj (a b : nat) : digit a = digit b -> a mod 10 = b mod 10.
Proof.
  intros E. apply Nat.compare_eq_iff. rewrite <- digit_cmp, E.
  unfold Ascii.compare. apply N.compare_refl.
Qed.

Lemma string_length_append (s t : string) :
  String.length (s ++ t) = String.length s + String.length t.
Proof. induction s as [|a s IH]; cbn; [reflexivity | rewrite IH; reflexivity]. Qed.

Lemma string_app_inj (s1 s2 t1 t2 : string) :
  String.length t1 = String.length t2 -> (s1 ++ t1 = s2 ++ t2)%string -> s1 = s2 /\ t1 = t2.
Proof.
  revert s2. induction s1 as [|a s1 IH]; intros [|b s2] Ht E; cbn in E.
  - split; [reflexivity | exact E].
  - exfalso. subst t1. cbn in Ht. rewrite string_length_append in Ht. lia.
  - exfalso. subst t2. cbn in Ht. rewrite string_length_append in Ht. lia.
  - injection E as <- E. destruct (IH s2 Ht E) as [-> ->]. split; reflexivity.
Qed.

Lemma eq_by_digits (a b : nat) : a / 10 = b / 10 -> a mod 10 = b mod 10 -> a = b.
Proof.
  intros E1 E2. rewrite (Nat.div_mod_eq a 10), (Nat.div_mod_eq b 10), E1, E2. reflexivity.
Qed.

(** Two numbers below [10 ^ n] with the same [n] decimal digits are equal. *)
Lemma digits_eq (a b n : nat) :
  (a < 10 ^ n)%nat -> (b < 10 ^ n)%nat ->
  (forall i, (i < n)%nat -> (a / 10 ^ i) mod 10 = (b / 10 ^ i) mod 10) -> a = b.
Proof.
  revert a b. induction n as [|n IH]; intros a b Ha Hb H.
  - cbn in *. lia.
  - apply eq_by_digits.
    + apply IH.
      * apply Nat.Div0.div_lt_upper_bound. cbn in Ha. lia.
      * apply Nat.Div0.div_lt_upper_bound. cbn in Hb. lia.
      * intros i Hi. rewrite !Nat.Div0.div_div, <- Nat.pow_succ_r'. apply H. lia.
    + pose proof (H 0 ltac:(lia)) as H0. rewrite Nat.pow_0_r, !Nat.div_1_r in H0. exact H0.
Qed.

Ltac digits_tac k :=
  apply (digits_eq _ _ k);
  [cbn [Nat.pow]; lia | cbn [Nat.pow]; lia
  | intros i Hi; destruct i as [|[|[|[|i]]]];
    [rewrite Nat.pow_0_r, !Nat.div_1_r | change (10 ^ 1)%nat with 10%nat
    | change (10 ^ 2)%nat with 100%nat | change (10 ^ 3)%nat with 1000%nat | idtac];
    first [assumption | lia]].

Lemma strftime_Y_inj (y1 y2 : nat) :
  (y1 < 10 ^ 4)%nat -> (y2 < 10 ^ 4)%nat -> strftime_Y y1 = strftime_Y y2 -> y1 = y2.
Proof.
  intros Y1 Y2. cbn [Nat.pow] in Y1, Y2. unfold strftime_Y.
  destruct (y1 <? 10)%nat eqn:A1; [apply Nat.ltb_lt in A1 | apply Nat.ltb_ge in A1];
  [|destruct (y1 <? 100)%nat eqn:B1; [apply Nat.ltb_lt in B1 | apply Nat.ltb_ge in B1];
    [|destruct (y1 <? 1000)%nat eqn:C1; [apply Nat.ltb_lt in C1 | apply Nat.ltb_ge in C1]]];
  (destruct (y2 <? 10)%nat eqn:A2; [apply Nat.ltb_lt in A2 | apply Nat.ltb_ge in A2];
   [|destruct (y2 <? 100)%nat eqn:B2; [apply Nat.ltb_lt in B2 | apply Nat.ltb_ge in B2];
     [|destruct (y2 <? 1000)%nat eqn:C2; [apply Nat.ltb_lt in C2 | apply Nat.ltb_ge in C2]]]);
  intros E; try (injection E; intros; discriminate);
  injection E; intros; repeat match goal with H : digit _ = digit _ |- _ =>
    apply digit_inj in H end;
  first [solve [digits_tac 1] | solve [digits_tac 2] | solve [digits_tac 3] | solve [digits_tac 4]].
Qed.

Lemma strftime_ym_split (d : date) :
  strftime_ym d = (strftime_Y (yr d) ++
    String "-"%char (String (digit (mo d / 10)) (String (digit (mo d)) EmptyString)))%string.
Proof. reflexivity. Qed.

(** Under the same bounds, two dates have the same [%Y-%m] string exactly
    when they have the same year and month, so the filter
    [df['Fecha'].dt.strftime('%Y-%m') == selected_month] selects the rows of
    one calendar month (lines 206, 219). *)
Theorem strftime_ym_same_month (d1 d2 : date) :
  (yr d1 < 10 ^ 4)%nat -> (yr d2 < 10 ^ 4)%nat -> (mo d1 < 100)%nat -> (mo d2 < 100)%nat ->
  strftime_ym d1 = strftime_ym d2 <-> yr d1 = yr d2 /\ mo d1 = mo d2.
Proof.
  intros Y1 Y2 M1 M2. split.
  - intros E. rewrite !strftime_ym_split in E.
    apply string_app_inj in E as [EY EM]; [|reflexivity].
    split; [exact (strftime_Y_inj _ _ Y1 Y2 EY)|].
    injection EM as E10 E1. apply digit_inj in E10, E1.
    rewrite (Nat.mod_small (mo d1 / 10)) in E10 by (apply Nat.Div0.div_lt_upper_bound; lia).
    rewrite (Nat.mod_small (mo d2 / 10)) in E10 by (apply Nat.Div0.div_lt_upper_bound; lia).
    rewrite (Nat.div_mod_eq (mo d1) 10), (Nat.div_mod_eq (mo d2) 10). lia.
  - intros [E1 E2]. unfold strftime_ym. rewrite E1, E2. reflexivity.
Qed.

End MonthExtra.

Module MonthExtraChecks.

Import Data DataFacts Dash PanelFacts StatsExtra MonthExtra Samples.

Local Open Scope nat_scope.
Local Open Scope string_scope.

Lemma strftime_ym_order_witness :
  (1000 <= yr (mkDate 2023 12 31))%nat /\ (1000 <= yr (mkDate 2024 1 1))%nat /\
  (yr (mkDate 2023 12 31) < 10 ^ 4)%nat /\ (yr (mkDate 2024 1 1) < 10 ^ 4)%nat /\
  (mo (mkDate 2023 12 31) < 100)%nat /\ (mo (mkDate 2024 1 1) < 100)%nat /\
  String.compare (strftime_ym (mkDate 2023 12 31)) (strftime_ym (mkDate 2024 1 1)) =
    Nat.compare (2023 * 100 + 12) (2024 * 100 + 1).
Proof.
  assert (Y1 : (yr (mkDate 2023 12 31) < 10 ^ 4)%nat) by (apply Nat.ltb_lt; vm_compute; reflexivity).
  assert (Y2 : (yr (mkDate 2024 1 1) < 10 ^ 4)%nat) by (apply Nat.ltb_lt; vm_compute; reflexivity).
  assert (M1 : (mo (mkDate 2023 12 31) < 100)%nat) by (cbn; lia).
  assert (M2 : (mo (mkDate 2024 1 1) < 100)%nat) by (cbn; lia).
  assert (L1 : (1000 <= yr (mkDate 2023 12 31))%nat) by (apply Nat.leb_le; vm_compute; reflexivity).
  assert (L2 : (1000 <= yr (mkDate 2024 1 1))%nat) by (apply Nat.leb_le; vm_compute; reflexivity).
  split; [exact L1|]. split; [exact L2|].
  split; [exact Y1|]. split; [exact Y2|]. split; [exact M1|]. split; [exact M2|].
  exact (strftime_ym_order (mkDate 2023 12 31) (mkDate 2024 1 1) L1 L2 Y1 Y2 M1 M2).
Defined.

Lemma default_month_is_latest_witness :
  nth_error heap_2024 0 = Some (OFrame (frame_of_rows rows_2024)) /\ rows_2024 <> [] /\
  (forall r, In r rows_2024 ->
     (1000 <= yr (Fecha r))%nat /\ (yr (Fecha r) < 10 ^ 4)%nat /\ (mo (Fecha r) < 100)%nat) /\
  exists r t, In r rows_2024 /\
    controls 0 None heap_2024 = (t, heap_2024, inr (strftime_ym (Fecha r))) /\
    forall r', In r' rows_2024 ->
      (yr (Fecha r') * 100 + mo (Fecha r') <= yr (Fecha r) * 100 + mo (Fecha r))%nat.
Proof.
  assert (Hb : forall r, In r rows_2024 ->
    (1000 <= yr (Fecha r))%nat /\ (yr (Fecha r) < 10 ^ 4)%nat /\ (mo (Fecha r) < 100)%nat).
  { intros r Hr. repeat destruct Hr as [<- | Hr]; try destruct Hr;
      (split; [apply Nat.leb_le; vm_compute; reflexivity|];
       split; [apply Nat.ltb_lt; vm_compute; reflexivity | cbn; lia]). }
  split; [reflexivity|]. split; [discriminate|]. split; [exact Hb|].
  exact (default_month_is_latest 0 heap_2024 rows_2024 eq_refl ltac:(discriminate) Hb).
Defined.

Lemma strftime_ym_same_month_witness :
  ((2024 < 10 ^ 4)%nat /\ (2024 < 10 ^ 4)%nat /\ (2 < 100)%nat /\ (2 < 100)%nat) /\
  (strftime_ym (mkDate 2024 2 1) = strftime_ym (mkDate 2024 2 29) <->
   yr (mkDate 2024 2 1) = yr (mkDate 2024 2 29) /\ mo (mkDate 2024 2 1) = mo (mkDate 2024 2 29)).
Proof.
  assert (Y : (2024 < 10 ^ 4)%nat) by (apply Nat.ltb_lt; vm_compute; reflexivity).
  split; [split; [exact Y | split; [exact Y | split; lia]]|].
  apply strftime_ym_same_month; [exact Y | exact Y | cbn; lia | cbn; lia].
Defined.

End MonthExtraChecks.

(** ** The individual map view *)

Module MapExtra.

Import Data Dash.

Local Open Scope nat_scope.
Local Open Scope string_scope.

(** In the individual view the map tab ends normally, every image it shows
    is the selected layer's raster for the month, and when the images
    directory exists but that raster does not, it shows
    "Imagen no disponible" (lines 342-365). *)
Theorem individual_view_shows_selected_layer resize (fs : files) (w : widgets) (m : string)
    (h : heap) :
  w_view w = Individual ->
  let file := match w_layer w with CapaNO2 => no2_file m | CapaT21 => t21_file m end in
  exists t, tab1 resize fs w m h = (t, h, inr tt) /\
    (forall i, In (ShowImage i) t -> fs_image fs file = Some i) /\
    (fs_images_dir fs = true -> fs_image fs file = None -> In (Error "Imagen no disponible") t).
Proof.
  intros Hv. cbv zeta. unfold tab1, show_or_error. rewrite Hv.
  destruct (fs_images_dir fs).
  - destruct (w_layer w);
      [destruct (fs_image fs (no2_file m)) as [img|] eqn:E
      | destruct (fs_image fs (t21_file m)) as [img|] eqn:E];
      (eexists; split; [reflexivity|]; split;
      [ intros i Hi; cbn in Hi;
        repeat (destruct Hi as [Hi | Hi];
                [ first [ discriminate Hi | congruence ] |]);
        destruct Hi
      | intros _ Hn; first [discriminate Hn | cbn; tauto] ]).
  - eexists. split; [reflexivity|]. split; [|discriminate].
    intros i Hi. cbn in Hi. repeat (destruct Hi as [Hi | Hi]; [discriminate Hi|]). destruct Hi.
Qed.

End MapExtra.

Module MapExtraChecks.

Import Data Dash MapExtra Samples.

Local Open Scope nat_scope.
Local Open Scope string_scope.

Lemma individual_view_shows_selected_layer_witness :
  w_view widgets_individual_t21 = Individual /\
  exists t, tab1 resize_nearest files_feb_no_t21 widgets_individual_t21 "2024-02" heap_2024 =
              (t, heap_2024, inr tt) /\
    (forall i, In (ShowImage i) t -> fs_image files_feb_no_t21 (t21_file "2024-02") = Some i) /\
    (fs_images_dir files_feb_no_t21 = true ->
     fs_image files_feb_no_t21 (t21_file "2024-02") = None ->
     In (Error "Imagen no disponible") t).
Proof.
  split; [reflexivity|].
  exact (individual_view_shows_selected_layer resize_nearest files_feb_no_t21
           widgets_individual_t21 "2024-02" heap_2024 eq_refl).
Defined.

End MapExtraChecks.
